(** * jobkit: the JobSystem scheduler (core/src/JobSystem.cpp, JobSystem.h)

    The scheduler is a pool of worker threads around one mutex-protected
    deque.  It is embedded here as an interleaving transition system: every
    step is one atomic operation of the source (an atomic load, CAS or
    fetch_add, or one critical section under [m_mtx]), and a scheduler
    [Action] picks which thread takes its next step.

    - A block guarded by [m_mtx] is one step: the mutex makes it atomic with
      respect to every other guarded block.  The states between steps are
      therefore the states a thread holding the lock can observe.
    - [cv.wait(lock, pred)] is a step that is enabled exactly when [pred]
      holds under the lock; a blocked thread simply has no step.  The
      notifications themselves carry no state, so [notify_one]/[notify_all]
      do not appear.  This is the usual abstraction for safety properties;
      nothing here speaks about liveness (whether a blocked thread is
      eventually woken).
    - Thread-local computation is fused with the atomic operation that
      follows it.
    - The user callable is opaque: running it is a step whose outcome
      (normal return or exception) is chosen by the environment.
    - Each step reports the events it performs (enqueue, dequeue, return
      values ...); histories of events are what the theorems count.
    - Line numbers (l.N) refer to core/src/JobSystem.cpp. *)

From stdpp Require Import gmap list strings.
From Stdlib Require Import ZArith Lia.

Local Open Scope Z_scope.

(** ** Machine integers *)

Definition wrap32 (z : Z) : Z := z mod 2 ^ 32.
Definition wrap64 (z : Z) : Z := z mod 2 ^ 64.

(** [std::atomic<uint64_t>::fetch_add] and [fetch_sub]: the value stored. *)
Definition fetch_add (x d : Z) : Z := wrap64 (x + d).
Definition fetch_sub (x d : Z) : Z := wrap64 (x - d).

(** ** Data model (JobSystem.h) *)

Inductive StopMode : Set :=
| Drain          (* finish queued work then stop *)
| CancelPending. (* drop queued work, finish only in-flight *)

Record Config : Set := { workerThreads : Z }.

Record Stats : Set := {
  workerCount : Z;
  queued : Z;
  inFlight : Z;
  submitted : Z;
  completed : Z }.

(** [std::function<void()>]: [None] is the empty function object, [Some c]
    a callable target named by [c]. *)
Definition Callable : Set := option nat.

(** [TaskItem].  The fields [id] and [label] exist only in a telemetry
    build; without telemetry they stay at their defaults. *)
Record TaskItem : Set := {
  item_fn : Callable;
  item_id : Z;
  item_label : option string }.

(** How a call of the task's callable ends. *)
Inductive Outcome : Set := Returned | Threw.

(** Where a worker thread stands inside [WorkerLoop]. *)
Inductive WorkerPc : Set :=
| WWait                   (* l.189: loop head, before locking and waiting on m_cvWork *)
| WRun (task : TaskItem)  (* l.207: lock released, task in hand, about to call task.fn *)
| WRan                    (* l.226: task.fn returned, or its exception was swallowed *)
| WCounted                (* l.237 done: m_completed bumped, m_inFlight not yet dropped *)
| WBreak                  (* l.198: left the loop, before the final notification *)
| WExited.                (* l.259: thread function returned *)

(** One [std::jthread] of [m_workers]: the thread and its stop state. *)
Record Worker : Set := {
  w_pc : WorkerPc;
  w_stop : bool }.

(** Where a calling thread stands inside a public member function. *)
Inductive CallerPc : Set :=
| PSubmitItem (label : option string) (task : Callable) (* l.53 *)
| PSubmitLock (item : TaskItem)                         (* l.63 *)
| PStopLock (mode : StopMode)                           (* l.92 *)
| PStopRequest (mode : StopMode) (k : nat)              (* l.99, next worker *)
| PStopWait (mode : StopMode)                           (* l.105 *)
| PStopJoin                                             (* l.117 *)
| PGetStats (k : nat) (acc : Stats).                    (* l.129 .. l.133 *)

Record State : Type := {
  m_queue : list TaskItem;
  m_accepting : bool;
  m_inFlight : Z;
  m_submitted : Z;
  m_completed : Z;
  m_nextTaskId : Z;
  m_workers : list Worker;
  callers : gmap nat CallerPc }.

Inductive Event : Type :=
| EvSubmitRet (t : nat) (r : bool)            (* Submit / SubmitLabeled returned r *)
| EvEnqueue (item : TaskItem)                 (* l.68 push_back *)
| EvDequeue (w : nat) (item : TaskItem)       (* l.204-205 front, pop_front *)
| EvDiscard (items : list TaskItem)           (* l.95 clear *)
| EvTask (w : nat) (item : TaskItem) (o : Outcome) (* l.221 *)
| EvCompleted (w : nat)                       (* l.237 *)
| EvWaitIdleRet (t : nat)
| EvStopRet (t : nat) (performed : bool)      (* Stop returned; performed = it won the CAS *)
| EvStats (t : nat) (st : Stats).

Inductive Call : Set :=
| CSubmit (task : Callable)
| CSubmitLabeled (label : option string) (task : Callable)
| CWaitIdle
| CStop (mode : StopMode)
| CDestroy
| CGetStats.

Inductive Action : Set :=
| ACall (t : nat) (c : Call)     (* thread t enters a member function *)
| AResume (t : nat)              (* thread t takes the next step of its call *)
| AWorker (i : nat) (o : Outcome). (* worker i takes its next step *)

(** ** Field updates *)

Definition set_queue (q : list TaskItem) (s : State) : State :=
  {| m_queue := q; m_accepting := m_accepting s; m_inFlight := m_inFlight s;
     m_submitted := m_submitted s; m_completed := m_completed s;
     m_nextTaskId := m_nextTaskId s; m_workers := m_workers s;
     callers := callers s |}.

Definition set_accepting (b : bool) (s : State) : State :=
  {| m_queue := m_queue s; m_accepting := b; m_inFlight := m_inFlight s;
     m_submitted := m_submitted s; m_completed := m_completed s;
     m_nextTaskId := m_nextTaskId s; m_workers := m_workers s;
     callers := callers s |}.

Definition set_inFlight (z : Z) (s : State) : State :=
  {| m_queue := m_queue s; m_accepting := m_accepting s; m_inFlight := z;
     m_submitted := m_submitted s; m_completed := m_completed s;
     m_nextTaskId := m_nextTaskId s; m_workers := m_workers s;
     callers := callers s |}.

Definition set_submitted (z : Z) (s : State) : State :=
  {| m_queue := m_queue s; m_accepting := m_accepting s; m_inFlight := m_inFlight s;
     m_submitted := z; m_completed := m_completed s;
     m_nextTaskId := m_nextTaskId s; m_workers := m_workers s;
     callers := callers s |}.

Definition set_completed (z : Z) (s : State) : State :=
  {| m_queue := m_queue s; m_accepting := m_accepting s; m_inFlight := m_inFlight s;
     m_submitted := m_submitted s; m_completed := z;
     m_nextTaskId := m_nextTaskId s; m_workers := m_workers s;
     callers := callers s |}.

Definition set_nextTaskId (z : Z) (s : State) : State :=
  {| m_queue := m_queue s; m_accepting := m_accepting s; m_inFlight := m_inFlight s;
     m_submitted := m_submitted s; m_completed := m_completed s;
     m_nextTaskId := z; m_workers := m_workers s;
     callers := callers s |}.

Definition set_workers (ws : list Worker) (s : State) : State :=
  {| m_queue := m_queue s; m_accepting := m_accepting s; m_inFlight := m_inFlight s;
     m_submitted := m_submitted s; m_completed := m_completed s;
     m_nextTaskId := m_nextTaskId s; m_workers := ws;
     callers := callers s |}.

Definition set_callers (cs : gmap nat CallerPc) (s : State) : State :=
  {| m_queue := m_queue s; m_accepting := m_accepting s; m_inFlight := m_inFlight s;
     m_submitted := m_submitted s; m_completed := m_completed s;
     m_nextTaskId := m_nextTaskId s; m_workers := m_workers s;
     callers := cs |}.

(** Thread [t] moves on to [pc] inside its call, or leaves the call. *)
Definition goto (t : nat) (pc : CallerPc) (s : State) : State :=
  set_callers (<[t := pc]> (callers s)) s.
Definition leave (t : nat) (s : State) : State :=
  set_callers (delete t (callers s)) s.

(** Worker [i] moves on to [pc]. *)
Definition wgoto (i : nat) (w : Worker) (pc : WorkerPc) (s : State) : State :=
  set_workers (<[i := {| w_pc := pc; w_stop := w_stop w |}]> (m_workers s)) s.

Definition exited (w : Worker) : bool :=
  match w_pc w with WExited => true | _ => false end.

(** ** Construction (l.7-33) *)

Definition ResolveThreadCount (requested hc : Z) : Z :=
  if negb (requested =? 0) then requested
  else if hc =? 0 then 1 else hc.

(** The constructor.  [hc] is what [std::thread::hardware_concurrency]
    reports.  Both it and [cfg.workerThreads] are 32-bit unsigned in the
    source, so each is read modulo 2^32.  The state returned is the one in
    which all [n] workers have been started and stand at the loop head. *)
Definition JobSystem_ctor (hc : Z) (cfg : Config) : State :=
  let n := ResolveThreadCount (wrap32 (workerThreads cfg)) (wrap32 hc) in
  {| m_queue := [];
     m_accepting := true;
     m_inFlight := 0;
     m_submitted := 0;
     m_completed := 0;
     m_nextTaskId := 1;
     m_workers := replicate (Z.to_nat n) {| w_pc := WWait; w_stop := false |};
     callers := ∅ |}.

Section JobSystem.

(** The compile-time switch [JOBSYS_TELEMETRY].  Only its effect on task
    items is modelled; the per-worker telemetry slots [m_workerTel] are
    written by workers and read by [GetDiagnostics] alone, which is not
    part of this development. *)
Variable JOBSYS_TELEMETRY : bool.

(** ** SubmitLabeled (l.45-74) and Submit (l.40-43) *)

(** l.47-51: reject an empty callable, then the lock-free read of
    [m_accepting]. *)
Definition SubmitLabeled (t : nat) (label : option string) (task : Callable)
    (s : State) : State * list Event :=
  match task with
  | None => (s, [EvSubmitRet t false])
  | Some _ =>
      if negb (m_accepting s) then (s, [EvSubmitRet t false])
      else (goto t (PSubmitItem label task) s, [])
  end.

(** l.53-61: build the item; in a telemetry build draw its id. *)
Definition SubmitLabeled_item (t : nat) (label : option string) (task : Callable)
    (s : State) : State * list Event :=
  if JOBSYS_TELEMETRY then
    (goto t (PSubmitLock {| item_fn := task; item_id := m_nextTaskId s;
                            item_label := label |})
       (set_nextTaskId (fetch_add (m_nextTaskId s) 1) s), [])
  else
    (goto t (PSubmitLock {| item_fn := task; item_id := 0; item_label := None |}) s,
     []).

(** l.63-73: the critical section, then [notify_one] and [return true]. *)
Definition SubmitLabeled_locked (t : nat) (item : TaskItem)
    (s : State) : State * list Event :=
  if negb (m_accepting s) then (leave t s, [EvSubmitRet t false])
  else
    (leave t (set_submitted (fetch_add (m_submitted s) 1)
                (set_queue (m_queue s ++ [item]) s)),
     [EvEnqueue item; EvSubmitRet t true]).

Definition Submit (t : nat) (task : Callable) (s : State) : State * list Event :=
  SubmitLabeled t None task s.

(** ** WaitIdle (l.76-84) *)

Definition WaitIdle_pred (s : State) : bool :=
  let empty := match m_queue s with [] => true | _ => false end in
  let noneInFlight := m_inFlight s =? 0 in
  empty && noneInFlight.

Definition WaitIdle (t : nat) (s : State) : option (State * list Event) :=
  if WaitIdle_pred s then Some (s, [EvWaitIdleRet t]) else None.

(** ** Stop (l.86-122) and the destructor (l.35-38) *)

(** l.88-90: the compare-exchange on [m_accepting]. *)
Definition Stop (t : nat) (mode : StopMode) (s : State) : State * list Event :=
  if m_accepting s then (goto t (PStopLock mode) (set_accepting false s), [])
  else (s, [EvStopRet t false]).

(** l.92-96 *)
Definition Stop_locked (t : nat) (mode : StopMode) (s : State) : State * list Event :=
  match mode with
  | CancelPending =>
      (goto t (PStopRequest mode 0) (set_queue [] s), [EvDiscard (m_queue s)])
  | Drain => (goto t (PStopRequest mode 0) s, [])
  end.

(** l.99-102: one iteration of the loop over [m_workers]; past the last
    worker, [notify_all] and on to the wait. *)
Definition Stop_request (t : nat) (mode : StopMode) (k : nat)
    (s : State) : State * list Event :=
  match m_workers s !! k with
  | Some w =>
      (goto t (PStopRequest mode (S k))
         (set_workers (<[k := {| w_pc := w_pc w; w_stop := true |}]> (m_workers s)) s),
       [])
  | None => (goto t (PStopWait mode) s, [])
  end.

(** l.105-114 *)
Definition Stop_wait (t : nat) (mode : StopMode) (s : State) : option (State * list Event) :=
  match mode with
  | Drain => if WaitIdle_pred s then Some (goto t PStopJoin s, []) else None
  | CancelPending =>
      if m_inFlight s =? 0 then Some (goto t PStopJoin s, []) else None
  end.

(** l.117-122: [m_workers.clear()] destroys every jthread, which joins it;
    the step is enabled once every worker thread has returned. *)
Definition Stop_join (t : nat) (s : State) : option (State * list Event) :=
  if forallb exited (m_workers s)
  then Some (leave t (set_workers [] s), [EvStopRet t true])
  else None.

Definition JobSystem_dtor (t : nat) (s : State) : State * list Event :=
  Stop t Drain s.

(** ** GetStats (l.124-139) *)

(** l.126-127: [Stats s{}] with every field 0, then the size of
    [m_workers]. *)
Definition GetStats (t : nat) (s : State) : State * list Event :=
  (goto t (PGetStats 1
     {| workerCount := wrap32 (Z.of_nat (length (m_workers s)));
        queued := 0; inFlight := 0; submitted := 0; completed := 0 |}) s, []).

(** l.129, l.130, l.131, then l.133-138. *)
Definition GetStats_read (t : nat) (k : nat) (acc : Stats)
    (s : State) : State * list Event :=
  match k with
  | 1%nat => (goto t (PGetStats 2
               {| workerCount := workerCount acc; queued := queued acc;
                  inFlight := m_inFlight s;
                  submitted := submitted acc; completed := completed acc |}) s, [])
  | 2%nat => (goto t (PGetStats 3
               {| workerCount := workerCount acc; queued := queued acc;
                  inFlight := inFlight acc;
                  submitted := m_submitted s; completed := completed acc |}) s, [])
  | 3%nat => (goto t (PGetStats 4
               {| workerCount := workerCount acc; queued := queued acc;
                  inFlight := inFlight acc;
                  submitted := submitted acc; completed := m_completed s |}) s, [])
  | _ => (leave t s,
          [EvStats t
             {| workerCount := workerCount acc;
                queued := wrap64 (Z.of_nat (length (m_queue s)));
                inFlight := inFlight acc;
                submitted := submitted acc; completed := completed acc |}])
  end.

(** ** WorkerLoop (l.177-259) *)

(** l.189-207: wait for work or stop under the lock, then break, continue
    or take the head of the queue. *)
Definition WorkerLoop_wait (i : nat) (w : Worker) (s : State) : option (State * list Event) :=
  let empty := match m_queue s with [] => true | _ => false end in
  if negb (w_stop w || negb empty) then None
  else if w_stop w && empty then Some (wgoto i w WBreak s, [])
  else
    match m_queue s with
    | [] => Some (s, [])
    | task :: rest =>
        Some (wgoto i w (WRun task)
                (set_inFlight (fetch_add (m_inFlight s) 1) (set_queue rest s)),
              [EvDequeue i task])
    end.

(** l.219-226: the call of the task inside [try]/[catch (...)]. *)
Definition WorkerLoop_run (i : nat) (w : Worker) (task : TaskItem) (o : Outcome)
    (s : State) : State * list Event :=
  match o with
  | Returned => (wgoto i w WRan s, [EvTask i task Returned])
  | Threw => (* catch (...) { } *) (wgoto i w WRan s, [EvTask i task Threw])
  end.

(** l.237 *)
Definition WorkerLoop_count (i : nat) (w : Worker) (s : State) : State * list Event :=
  (wgoto i w WCounted (set_completed (fetch_add (m_completed s) 1) s),
   [EvCompleted i]).

(** l.239-248, and back to the loop head. *)
Definition WorkerLoop_finish (i : nat) (w : Worker) (s : State) : State * list Event :=
  (wgoto i w WWait (set_inFlight (fetch_sub (m_inFlight s) 1) s), []).

(** l.252-259 *)
Definition WorkerLoop_exit (i : nat) (w : Worker) (s : State) : State * list Event :=
  (wgoto i w WExited s, []).

(** ** The transition system *)

Definition call_step (t : nat) (c : Call) (s : State) : option (State * list Event) :=
  match c with
  | CSubmit task => Some (Submit t task s)
  | CSubmitLabeled label task => Some (SubmitLabeled t label task s)
  | CWaitIdle => WaitIdle t s
  | CStop mode => Some (Stop t mode s)
  | CDestroy => Some (JobSystem_dtor t s)
  | CGetStats => Some (GetStats t s)
  end.

Definition resume_step (t : nat) (pc : CallerPc) (s : State) : option (State * list Event) :=
  match pc with
  | PSubmitItem label task => Some (SubmitLabeled_item t label task s)
  | PSubmitLock item => Some (SubmitLabeled_locked t item s)
  | PStopLock mode => Some (Stop_locked t mode s)
  | PStopRequest mode k => Some (Stop_request t mode k s)
  | PStopWait mode => Stop_wait t mode s
  | PStopJoin => Stop_join t s
  | PGetStats k acc => Some (GetStats_read t k acc s)
  end.

Definition worker_step (i : nat) (w : Worker) (o : Outcome) (s : State)
    : option (State * list Event) :=
  match w_pc w with
  | WWait => WorkerLoop_wait i w s
  | WRun task => Some (WorkerLoop_run i w task o s)
  | WRan => Some (WorkerLoop_count i w s)
  | WCounted => Some (WorkerLoop_finish i w s)
  | WBreak => Some (WorkerLoop_exit i w s)
  | WExited => None
  end.

(** A thread that is inside a call cannot enter another one; a thread
    outside any call has nothing to resume. *)
Definition step (a : Action) (s : State) : option (State * list Event) :=
  match a with
  | ACall t c =>
      match callers s !! t with
      | Some _ => None
      | None => call_step t c s
      end
  | AResume t =>
      match callers s !! t with
      | Some pc => resume_step t pc s
      | None => None
      end
  | AWorker i o =>
      match m_workers s !! i with
      | Some w => worker_step i w o s
      | None => None
      end
  end.

Fixpoint run (acts : list Action) (s : State) : option (State * list Event) :=
  match acts with
  | [] => Some (s, [])
  | a :: rest =>
      match step a s with
      | None => None
      | Some (s1, e1) =>
          match run rest s1 with
          | None => None
          | Some (s2, e2) => Some (s2, e1 ++ e2)
          end
      end
  end.

End JobSystem.

(** ** Histories *)

(** What a history of events says was pushed, taken off the front, thrown
    away, and completed, each in order of occurrence. *)
Definition enqueued (evs : list Event) : list TaskItem :=
  flat_map (λ e, match e with EvEnqueue x => [x] | _ => [] end) evs.

Definition dequeued (evs : list Event) : list TaskItem :=
  flat_map (λ e, match e with EvDequeue _ x => [x] | _ => [] end) evs.

Definition discarded (evs : list Event) : list TaskItem :=
  flat_map (λ e, match e with EvDiscard xs => xs | _ => [] end) evs.

Definition removed (evs : list Event) : list TaskItem :=
  flat_map (λ e, match e with
                 | EvDequeue _ x => [x]
                 | EvDiscard xs => xs
                 | _ => []
                 end) evs.

Definition completions (evs : list Event) : list nat :=
  flat_map (λ e, match e with EvCompleted w => [w] | _ => [] end) evs.

Definition stop_returned (evs : list Event) : bool :=
  existsb (λ e, match e with EvStopRet _ _ => true | _ => false end) evs.

Definition stop_performed (evs : list Event) : bool :=
  existsb (λ e, match e with EvStopRet _ p => p | _ => false end) evs.

(** ** Counting workers by program point *)

Fixpoint cnt (P : WorkerPc → bool) (ws : list Worker) : nat :=
  match ws with
  | [] => 0%nat
  | w :: r => ((if P (w_pc w) then 1 else 0) + cnt P r)%nat
  end.

(** In flight: between the increment of [m_inFlight] (l.206) and its
    decrement (l.241). *)
Definition inhand (pc : WorkerPc) : bool :=
  match pc with WRun _ | WRan | WCounted => true | _ => false end.

(** In flight and not yet counted in [m_completed]. *)
Definition uncounted (pc : WorkerPc) : bool :=
  match pc with WRun _ | WRan => true | _ => false end.

(** Mid-transition: the worker has bumped [m_completed] (l.237) and has not
    yet reached the decrement of [m_inFlight] under the lock (l.241). *)
Definition mid_transition (pc : WorkerPc) : bool :=
  match pc with WCounted => true | _ => false end.

(** Inside [Stop], past the compare-exchange. *)
Definition is_stop (pc : CallerPc) : bool :=
  match pc with
  | PStopLock _ | PStopRequest _ _ | PStopWait _ | PStopJoin => true
  | _ => false
  end.

(** A pending submission carries a non-empty callable. *)
Definition submit_ok (pc : CallerPc) : Prop :=
  match pc with
  | PSubmitItem _ task => task ≠ None
  | PSubmitLock item => item_fn item ≠ None
  | _ => True
  end.

Definition worker_total (hc : Z) (cfg : Config) : nat :=
  Z.to_nat (ResolveThreadCount (wrap32 (workerThreads cfg)) (wrap32 hc)).

(** ** Executions, as a relation that grows at the end *)

Inductive Exec (tel : bool) (s0 : State)
  : list Action → State → list Event → Prop :=
| Exec_init : Exec tel s0 [] s0 []
| Exec_step acts s evs a s' e :
    Exec tel s0 acts s evs →
    step tel a s = Some (s', e) →
    Exec tel s0 (acts ++ [a]) s' (evs ++ e).

(** ** The invariant *)

Record Inv (N : nat) (s : State) (evs : list Event) : Prop := {
  inv_N : Z.of_nat N < 2 ^ 32;
  inv_submitted : m_submitted s = wrap64 (Z.of_nat (length (enqueued evs)));
  inv_completed : m_completed s = wrap64 (Z.of_nat (length (completions evs)));
  inv_inFlight : m_inFlight s = Z.of_nat (cnt inhand (m_workers s));
  inv_queue : enqueued evs = removed evs ++ m_queue s;
  inv_taken :
    length (dequeued evs)
    = (length (completions evs) + cnt uncounted (m_workers s))%nat;
  inv_workers :
    length (m_workers s) = if stop_performed evs then 0%nat else N;
  inv_accepting :
    m_accepting s = true → discarded evs = [] ∧ stop_returned evs = false;
  inv_stop_acc : ∀ t pc,
    callers s !! t = Some pc → is_stop pc = true → m_accepting s = false;
  inv_stop_uniq : ∀ t pc t' pc',
    callers s !! t = Some pc → callers s !! t' = Some pc' →
    is_stop pc = true → is_stop pc' = true → t' = t;
  inv_stop_lock : ∀ t m,
    callers s !! t = Some (PStopLock m) → discarded evs = [];
  inv_submit : ∀ t pc, callers s !! t = Some pc → submit_ok pc }.

(** What a [GetStats] may hold as worker count when the pool was built
    with [N] workers: [N], or 0 once a [Stop] has destroyed them. *)
Definition count_ok (N : nat) (evs : list Event) (st : Stats) : Prop :=
  workerCount st = Z.of_nat N
  ∨ (workerCount st = 0 ∧ stop_performed evs = true).

Record StatsInv (N : nat) (s : State) (evs : list Event) : Prop := {
  si_pc : ∀ t k acc, callers s !! t = Some (PGetStats k acc) → count_ok N evs acc;
  si_ev : ∀ t st, In (EvStats t st) evs → count_ok N evs st }.

(** ** Vocabulary of the statements *)

(** A call of [Stop], directly or through the destructor. *)
Definition is_stop_call (a : Action) : bool :=
  match a with
  | ACall _ (CStop _) | ACall _ CDestroy => true
  | _ => false
  end.

Definition no_stop_calls (acts : list Action) : bool :=
  forallb (λ a, negb (is_stop_call a)) acts.

Definition stop_called (acts : list Action) : bool :=
  existsb is_stop_call acts.


(** No worker stands between its increment of [m_completed] and its
    decrement of [m_inFlight]. *)
Definition no_mid_transition (s : State) : Prop :=
  ∀ i w, m_workers s !! i = Some w → mid_transition (w_pc w) = false.

(** The state and the history an execution ends with (the start state and
    the empty history if some action of it is not enabled). *)
Definition final (tel : bool) (acts : list Action) (s0 : State) : State :=
  match run tel acts s0 with Some (s, _) => s | None => s0 end.

Definition history (tel : bool) (acts : list Action) (s0 : State) : list Event :=
  match run tel acts s0 with Some (_, evs) => evs | None => [] end.

(** ** Scenarios *)

Definition cfg1 : Config := {| workerThreads := 1 |}.

(** Thread [t] submits the callable [c], start to end. *)
Definition submit_acts (t c : nat) : list Action :=
  [ACall t (CSubmit (Some c)); AResume t; AResume t].

(** Two submissions, both tasks still queued. *)
Definition queued_acts : list Action :=
  submit_acts 0 7 ++ submit_acts 0 8.

(** One submission; the worker takes the task, the task throws, and the
    worker finishes the iteration. *)
Definition done_acts : list Action :=
  submit_acts 0 7
  ++ [AWorker 0 Returned; AWorker 0 Threw; AWorker 0 Returned; AWorker 0 Returned].

(** Two submissions, the worker takes the first task, and while it runs a
    second thread enters [Stop(CancelPending)] and wins the
    compare-exchange; its next step is the discard. *)
Definition cancel_acts : list Action :=
  queued_acts ++ [AWorker 0 Returned; ACall 1 (CStop CancelPending)].

(** One submission, and the worker takes the task. *)
Definition taken_acts : list Action :=
  submit_acts 0 7 ++ [AWorker 0 Returned].

(** A complete [Stop(Drain)] on an idle pool of one worker. *)
Definition stop_acts : list Action :=
  [ACall 1 (CStop Drain); AResume 1; AResume 1; AResume 1;
   AWorker 0 Returned; AWorker 0 Returned; AResume 1; AResume 1].

(** A complete [GetStats] by thread [t]. *)
Definition stats_acts (t : nat) : list Action :=
  [ACall t CGetStats; AResume t; AResume t; AResume t; AResume t].

(** ** Further vocabulary: task executions, performed shutdowns *)

(** The tasks whose callable has been called (l.221), in order. *)
Definition ran (evs : list Event) : list TaskItem :=
  flat_map (λ e, match e with EvTask _ x _ => [x] | _ => [] end) evs.

(** The threads whose submissions returned true, in order. *)
Definition accepted_returns (evs : list Event) : list nat :=
  flat_map (λ e, match e with EvSubmitRet t true => [t] | _ => [] end) evs.

(** The threads whose [Stop] performed the shutdown (won the
    compare-exchange and returned after the join). *)
Definition performed_returns (evs : list Event) : list nat :=
  flat_map (λ e, match e with EvStopRet t true => [t] | _ => [] end) evs.

(** The discards (l.95), one entry per call of [clear]. *)
Definition discards (evs : list Event) : list (list TaskItem) :=
  flat_map (λ e, match e with EvDiscard xs => [xs] | _ => [] end) evs.

(** Holding a task whose callable has not been called yet. *)
Definition running (pc : WorkerPc) : bool :=
  match pc with WRun _ => true | _ => false end.

(** The callable was called, [m_completed] not yet bumped. *)
Definition just_ran (pc : WorkerPc) : bool :=
  match pc with WRan => true | _ => false end.

(** Out of the loop of [WorkerLoop]. *)
Definition left_loop (pc : WorkerPc) : bool :=
  match pc with WBreak | WExited => true | _ => false end.

(** Program points of [Stop] at which the queue is known to be empty:
    after the discard of [CancelPending], and after the wait of either
    mode. *)
Definition queue_cleared (pc : CallerPc) : bool :=
  match pc with
  | PStopRequest CancelPending _ | PStopWait CancelPending | PStopJoin => true
  | _ => false
  end.

(** Inside [Submit] or [SubmitLabeled]. *)
Definition is_submit (pc : CallerPc) : bool :=
  match pc with PSubmitItem _ _ | PSubmitLock _ => true | _ => false end.

Definition is_submit_call (a : Action) : bool :=
  match a with
  | ACall _ (CSubmit _) | ACall _ (CSubmitLabeled _ _) => true
  | _ => false
  end.

Definition is_cancel_call (a : Action) : bool :=
  match a with ACall _ (CStop CancelPending) => true | _ => false end.

(** ** The second invariant: executions of tasks and the shutdown *)

Record Inv2 (s : State) (evs : list Event) : Prop := {
  i2_ran :
    length (dequeued evs) = (length (ran evs) + cnt running (m_workers s))%nat;
  i2_compl :
    length (ran evs) = (length (completions evs) + cnt just_ran (m_workers s))%nat;
  i2_accepted : length (accepted_returns evs) = length (enqueued evs);
  i2_stopflag : ∀ i w,
    m_workers s !! i = Some w → w_stop w = true → m_accepting s = false;
  i2_left : ∀ i w,
    m_workers s !! i = Some w → left_loop (w_pc w) = true →
    w_stop w = true ∧ m_queue s = [];
  i2_queue_fn : ∀ x, x ∈ m_queue s → item_fn x ≠ None;
  i2_held_fn : ∀ i w task,
    m_workers s !! i = Some w → w_pc w = WRun task → item_fn task ≠ None;
  i2_cleared : ∀ t pc,
    callers s !! t = Some pc → queue_cleared pc = true → m_queue s = [];
  i2_performed :
    stop_performed evs = true →
    m_queue s = [] ∧ m_accepting s = false
    ∧ ∀ t pc, callers s !! t = Some pc → is_stop pc = false;
  i2_performer :
    length (performed_returns evs) = if stop_performed evs then 1%nat else 0%nat;
  i2_discards : (length (discards evs) ≤ 1)%nat;
  i2_discards_acc : m_accepting s = true → discards evs = [];
  i2_discards_lock : ∀ t m,
    callers s !! t = Some (PStopLock m) → discards evs = [] }.

Definition no_cancel_calls (acts : list Action) : bool :=
  forallb (λ a, negb (is_cancel_call a)) acts.

Definition no_submit_calls (acts : list Action) : bool :=
  forallb (λ a, negb (is_submit_call a)) acts.

(** No thread stands at the discard of a [Stop(CancelPending)]. *)
Definition no_cancel_pending (s : State) : Prop :=
  ∀ t, callers s !! t ≠ Some (PStopLock CancelPending).

(** Shut down: no workers, flag cleared, queue empty, nobody inside
    [Stop]. *)
Definition shut_down (s : State) : Prop :=
  m_workers s = [] ∧ m_accepting s = false ∧ m_queue s = []
  ∧ ∀ t pc, callers s !! t = Some pc → is_stop pc = false.

(** Idle, with no submission under way. *)
Definition quiet (s : State) : Prop :=
  m_queue s = [] ∧ m_inFlight s = 0
  ∧ ∀ t pc, callers s !! t = Some pc → is_submit pc = false.

(** ** Task identifiers *)

(** In a telemetry build, after [n] steps: the identifiers handed out so
    far are those below [m_nextTaskId]; the items pushed and the items of
    submissions waiting for the lock carry pairwise different ones. *)
Record TelInv (n : nat) (s : State) (evs : list Event) : Prop := {
  t_next : 1 ≤ m_nextTaskId s ≤ 1 + Z.of_nat n;
  t_enq : ∀ x, x ∈ enqueued evs → 1 ≤ item_id x < m_nextTaskId s;
  t_pend : ∀ t item,
    callers s !! t = Some (PSubmitLock item) →
    1 ≤ item_id item < m_nextTaskId s
    ∧ ∀ x, x ∈ enqueued evs → item_id x ≠ item_id item;
  t_pend_uniq : ∀ t item t' item',
    callers s !! t = Some (PSubmitLock item) →
    callers s !! t' = Some (PSubmitLock item') →
    item_id item = item_id item' → t = t';
  t_nodup : NoDup (item_id <$> enqueued evs) }.

(** Without telemetry an item has no identifier and no label: both stay at
    their defaults. *)
Definition plain (x : TaskItem) : Prop := item_id x = 0 ∧ item_label x = None.

Record PlainInv (s : State) (evs : list Event) : Prop := {
  pl_enq : ∀ x, x ∈ enqueued evs → plain x;
  pl_pend : ∀ t item, callers s !! t = Some (PSubmitLock item) → plain item }.

(** ** The test harness (the test program's [TestRunner]) *)

From stdpp Require Import pretty.
Local Open Scope Z_scope.

Module TestRunner.

(** [struct TestRunner]: the number of failed checks, a C++ [int]. *)
Record Runner : Set := { failures : Z }.

(** One use of the [CHECK] macro: the condition with its source text, file
    and line. *)
Record CheckCall : Set := {
  condition : bool;
  expr : string;
  file : string;
  line : Z }.

Definition INT_MAX : Z := 2 ^ 31 - 1.

Definition endl : string := String (Ascii.ascii_of_nat 10) EmptyString.

(** The line [Check] writes to [std::cerr] for a failed condition. *)
Definition fail_line (c : CheckCall) : string :=
  "FAIL " +:+ file c +:+ ":" +:+ pretty (line c) +:+ " " +:+ expr c +:+ endl.

(** [Check]: the runner afterwards and the text written to [std::cerr].
    [++failures] on [INT_MAX] is undefined behaviour: no result. *)
Definition Check (c : CheckCall) (r : Runner) : option (Runner * list string) :=
  if condition c then Some (r, [])
  else if failures r =? INT_MAX then None
  else Some ({| failures := failures r + 1 |}, [fail_line c]).

(** [Finish]: the exit code and the text written to [std::cout]. *)
Definition Finish (r : Runner) : Z * list string :=
  (if failures r =? 0 then 0 else 1,
   if failures r =? 0 then ["All tests passed" +:+ endl] else []).

(** A sequence of checks on one runner, as the test functions perform
    them. *)
Fixpoint checks (cs : list CheckCall) (r : Runner) : option (Runner * list string) :=
  match cs with
  | [] => Some (r, [])
  | c :: rest =>
      match Check c r with
      | None => None
      | Some (r1, o1) =>
          match checks rest r1 with
          | None => None
          | Some (r2, o2) => Some (r2, o1 ++ o2)
          end
      end
  end.

Definition failed (cs : list CheckCall) : list CheckCall :=
  List.filter (λ c, negb (condition c)) cs.

End TestRunner.

(** ** Tasks in the hands of workers, item by item *)

(** The task a worker at this program point is about to call. *)
Definition holding (pc : WorkerPc) : list TaskItem :=
  match pc with WRun task => [task] | _ => [] end.

(** The tasks the workers are about to call, in the order of the worker
    vector. *)
Definition held (ws : list Worker) : list TaskItem :=
  flat_map (λ w, holding (w_pc w)) ws.

(** The threads whose [WaitIdle] returned, in order. *)
Definition waitidle_returns (evs : list Event) : list nat :=
  flat_map (λ e, match e with EvWaitIdleRet t => [t] | _ => [] end) evs.

(** Worker [i] takes no step in [acts]: it is inside the callable of its
    task, which has not returned. *)
Definition worker_silent (i : nat) (acts : list Action) : bool :=
  forallb (λ a, match a with AWorker j _ => negb (i =? j)%nat | _ => true end) acts.

(** ** Further scenarios *)

(** Two submissions, the worker holds the first task, the second is
    queued. *)
Definition first_taken_acts : list Action :=
  queued_acts ++ [AWorker 0 Returned].

(** Worker 0 handles one task from the queue: take, call, count, finish. *)
Definition serve_acts (o : Outcome) : list Action :=
  [AWorker 0 Returned; AWorker 0 o; AWorker 0 Returned; AWorker 0 Returned].

(** Three submissions; the worker handles the first task and takes the
    second, and then a second thread's [Stop(CancelPending)] discards the
    third. *)
Definition mixed_acts : list Action :=
  queued_acts ++ submit_acts 0 9 ++ serve_acts Threw
  ++ [AWorker 0 Returned; ACall 1 (CStop CancelPending); AResume 1].

(** Two submissions, both served, the first task throwing. *)
Definition drained_acts : list Action :=
  queued_acts ++ serve_acts Threw ++ serve_acts Returned.

(** [Stop(CancelPending)] from start to end with one task running and one
    queued: the discard, the stop request, the running task finishes (it
    throws), the worker leaves, wait and join. *)
Definition cancel_full_acts : list Action :=
  cancel_acts
  ++ [AResume 1; AResume 1; AResume 1;
      AWorker 0 Threw; AWorker 0 Returned; AWorker 0 Returned;
      AWorker 0 Returned; AWorker 0 Returned;
      AResume 1; AResume 1].

(** [Stop(Drain)] from start to end with two tasks queued: the worker
    serves both after the stop request, then leaves; wait and join. *)
Definition drain_full_acts : list Action :=
  queued_acts
  ++ [ACall 1 (CStop Drain); AResume 1; AResume 1; AResume 1]
  ++ serve_acts Returned ++ serve_acts Threw
  ++ [AWorker 0 Returned; AWorker 0 Returned; AResume 1; AResume 1].

(** While the worker holds a task: a second thread enters [Stop(Drain)]
    and gets as far as the wait, and a third thread calls [Stop]. *)
Definition stop_blocked_acts : list Action :=
  [ACall 1 (CStop Drain); AResume 1; AResume 1; AResume 1; ACall 2 (CStop Drain)].

(** After the discard: the worker calls the task it holds, which throws,
    counts it and goes back to the head of its loop, while a third thread
    tries to submit. *)
Definition after_discard_acts : list Action :=
  [AWorker 0 Threw; ACall 2 (CSubmit (Some 9%nat)); AWorker 0 Returned;
   AWorker 0 Returned].

(** * Proofs *)

(** ** Counting, arithmetic and histories *)

Lemma cnt_insert P (ws : list Worker) i w pc st :
  ws !! i = Some w →
  (cnt P (<[i := {| w_pc := pc; w_stop := st |}]> ws)
   + (if P (w_pc w) then 1 else 0)
   = cnt P ws + (if P pc then 1 else 0))%nat.
Proof.
  revert i. induction ws as [|x r IH]; intros [|i] H; simplify_eq/=.
  - lia.
  - specialize (IH _ H). lia.
Qed.

Lemma cnt_le_length P ws : (cnt P ws ≤ length ws)%nat.
Proof. induction ws as [|x r IH]; simpl; [lia|]. destruct (P (w_pc x)); lia. Qed.

Lemma cnt_exited P ws :
  P WExited = false → forallb exited ws = true → cnt P ws = 0%nat.
Proof.
  intros HP. induction ws as [|x r IH]; simpl; [done|].
  intros [Hx Hr]%andb_prop. rewrite (IH Hr).
  unfold exited in Hx. destruct (w_pc x); try done. by rewrite HP.
Qed.

Lemma wrap64_small z : 0 ≤ z < 2 ^ 64 → wrap64 z = z.
Proof. intros. unfold wrap64. by apply Z.mod_small. Qed.

Lemma wrap64_succ z : wrap64 (wrap64 z + 1) = wrap64 (z + 1).
Proof. unfold wrap64. by rewrite Zplus_mod_idemp_l. Qed.

Lemma enqueued_app a b : enqueued (a ++ b) = enqueued a ++ enqueued b.
Proof. apply flat_map_app. Qed.
Lemma dequeued_app a b : dequeued (a ++ b) = dequeued a ++ dequeued b.
Proof. apply flat_map_app. Qed.
Lemma discarded_app a b : discarded (a ++ b) = discarded a ++ discarded b.
Proof. apply flat_map_app. Qed.
Lemma removed_app a b : removed (a ++ b) = removed a ++ removed b.
Proof. apply flat_map_app. Qed.
Lemma completions_app a b : completions (a ++ b) = completions a ++ completions b.
Proof. apply flat_map_app. Qed.
Lemma stop_returned_app a b :
  stop_returned (a ++ b) = stop_returned a || stop_returned b.
Proof. apply existsb_app. Qed.
Lemma stop_performed_app a b :
  stop_performed (a ++ b) = stop_performed a || stop_performed b.
Proof. apply existsb_app. Qed.

(** Push the history functions through the events of the last step. *)
Ltac hist_simpl :=
  rewrite ?enqueued_app, ?dequeued_app, ?discarded_app, ?removed_app,
    ?completions_app, ?stop_returned_app, ?stop_performed_app, ?length_app;
  simpl;
  rewrite ?app_nil_r, ?orb_false_r, ?orb_true_r, ?Nat.add_0_r.

(** Split a lookup in the updated table of callers into the thread that
    moved and the others. *)
Ltac map_field :=
  repeat match goal with
  | H : <[_ := _]> _ !! _ = Some _ |- _ =>
      apply lookup_insert_Some in H; destruct H as [[? ?]|[? H]]
  | H : delete _ _ !! _ = Some _ |- _ =>
      apply lookup_delete_Some in H; destruct H as [? H]
  end; simplify_eq/=.

(** Turn the tests a step has made into equations. *)
Ltac bool_norm :=
  repeat match goal with
  | H : negb _ = true |- _ => apply negb_true_iff in H
  | H : negb _ = false |- _ => apply negb_false_iff in H
  | H : _ && _ = true |- _ => apply andb_prop in H; destruct H
  | H : (_ =? _) = true |- _ => apply Z.eqb_eq in H
  | H : (_ =? _) = false |- _ => apply Z.eqb_neq in H
  end.

(** Closing steps for the fields about calling threads: the flag is known,
    a pending submission is known to be well formed, or two threads past
    the compare-exchange (or one while the flag is still set) contradict
    the invariant. *)
Ltac caller_close :=
  match goal with
  | |- _ => done
  | |- _ => congruence
  | |- _ => eauto 3; done
  | A : m_accepting ?s = true → _, T : m_accepting ?s = true |- _ =>
      destruct (A T); done
  | S : ∀ t pc, callers ?s !! t = Some pc → submit_ok pc,
    H : callers ?s !! _ = Some _ |- _ => exact (S _ _ H)
  | A : ∀ t pc, callers ?s !! t = Some pc → is_stop pc = true → m_accepting ?s = false,
    H : callers ?s !! _ = Some ?pc, T : m_accepting ?s = true |- _ =>
      exfalso;
      let K := fresh in
      assert (is_stop pc = true) as K by (simpl; done);
      specialize (A _ _ H K); congruence
  | U : ∀ t pc t' pc', callers ?s !! t = Some pc → callers ?s !! t' = Some pc' → _,
    H1 : callers ?s !! ?a = Some ?p1, H2 : callers ?s !! ?b = Some ?p2,
    Hne : ?a ≠ ?b |- _ =>
      exfalso; apply Hne; symmetry; apply (U _ _ _ _ H1 H2); simpl; done
  end.

(** Case analysis on the step taken: unfold the operation and split on
    every test it makes. *)
Ltac op_cases Hs :=
  simpl in Hs;
  unfold Submit, SubmitLabeled, WaitIdle, JobSystem_dtor, Stop, GetStats,
    SubmitLabeled_item, SubmitLabeled_locked, Stop_locked, Stop_request,
    Stop_wait, Stop_join, GetStats_read,
    WorkerLoop_wait, WorkerLoop_run, WorkerLoop_count, WorkerLoop_finish,
    WorkerLoop_exit in Hs;
  repeat case_match; simplify_eq/=.

(** Re-establish the invariant field by field; what is left is the
    arithmetic of the counters. *)
Ltac inv_fields :=
  bool_norm;
  split; simpl; hist_simpl; try done;
  try (intros; map_field; caller_close).

Lemma call_step_Inv N t c s evs s' e :
  Inv N s evs → callers s !! t = None →
  call_step t c s = Some (s', e) → Inv N s' (evs ++ e).
Proof.
  intros HI Hc Hs.
  destruct c; op_cases Hs.
  all: destruct HI as [HN Hsub Hcomp Hinf Hq Htk Hws Hacc Hsa Hsu Hsl Hsok]; inv_fields.
Qed.

Lemma resume_step_Inv tel N t pc s evs s' e :
  Inv N s evs → callers s !! t = Some pc →
  resume_step tel t pc s = Some (s', e) → Inv N s' (evs ++ e).
Proof.
  intros HI Hc Hs.
  destruct pc; op_cases Hs.
  all: destruct HI as [HN Hsub Hcomp Hinf Hq Htk Hws Hacc Hsa Hsu Hsl Hsok]; inv_fields.
  - unfold fetch_add. rewrite Hsub, wrap64_succ. f_equal. lia.
  - by rewrite Hq, app_assoc.
  - match goal with H : m_workers _ !! _ = Some _ |- _ =>
      pose proof (cnt_insert inhand _ _ _ (w_pc w) true H) end. lia.
  - match goal with H : m_workers _ !! _ = Some _ |- _ =>
      pose proof (cnt_insert uncounted _ _ _ (w_pc w) true H) end. lia.
  - by rewrite length_insert.
  - rewrite Hinf, cnt_exited; done.
  - rewrite cnt_exited in Htk; [lia|done..].
Qed.

Lemma worker_step_Inv N i w o s evs s' e :
  Inv N s evs → m_workers s !! i = Some w →
  worker_step i w o s = Some (s', e) → Inv N s' (evs ++ e).
Proof.
  intros HI Hw Hs. unfold worker_step in Hs.
  pose proof (cnt_le_length inhand (m_workers s)) as Hle.
  assert (length (m_workers s) ≤ N)%nat as HlN.
  { rewrite (inv_workers _ _ _ HI). destruct (stop_performed evs); lia. }
  pose proof (inv_N _ _ _ HI) as HN'.
  destruct (w_pc w) eqn:Hpc; op_cases Hs.
  all: destruct HI as [HN Hsub Hcomp Hinf Hq Htk Hws Hacc Hsa Hsu Hsl Hsok]; inv_fields.
  all: rewrite ?length_insert; try done.
  all: try match goal with |- context [cnt ?P (<[_ := {| w_pc := ?pc; w_stop := ?st |}]> _)] =>
      let K := fresh in
      pose proof (cnt_insert P _ _ _ pc st Hw) as K; rewrite Hpc in K; simpl in K end.
  all: unfold fetch_add, fetch_sub in *.
  all: try lia.
  - match goal with |- context [cnt inhand ?ws'] =>
      pose proof (cnt_le_length inhand ws') as Hle' end.
    rewrite length_insert in Hle'.
    rewrite wrap64_small; lia.
  - rewrite Hq.
    match goal with H : m_queue s = _ |- _ => rewrite H end.
    by rewrite <- app_assoc.
  - rewrite Hcomp, wrap64_succ. f_equal. lia.
  - rewrite wrap64_small; lia.
Qed.

Lemma step_Inv tel N a s evs s' e :
  Inv N s evs → step tel a s = Some (s', e) → Inv N s' (evs ++ e).
Proof.
  intros HI Hs. destruct a as [t c|t|i o]; simpl in Hs.
  - destruct (callers s !! t) eqn:Hc; [done|]. by eapply call_step_Inv.
  - destruct (callers s !! t) eqn:Hc; [|done]. by eapply resume_step_Inv.
  - destruct (m_workers s !! i) eqn:Hw; [|done]. by eapply worker_step_Inv.
Qed.

Lemma ResolveThreadCount_range r h :
  0 ≤ r < 2 ^ 32 → 0 ≤ h < 2 ^ 32 → 1 ≤ ResolveThreadCount r h < 2 ^ 32.
Proof.
  intros Hr Hh. unfold ResolveThreadCount.
  destruct (r =? 0) eqn:Er; simpl; [|apply Z.eqb_neq in Er; lia].
  destruct (h =? 0) eqn:Eh; [lia|apply Z.eqb_neq in Eh; lia].
Qed.

Lemma wrap32_range z : 0 ≤ wrap32 z < 2 ^ 32.
Proof. unfold wrap32. apply Z.mod_pos_bound. lia. Qed.

Lemma worker_total_range hc cfg :
  1 ≤ Z.of_nat (worker_total hc cfg) < 2 ^ 32.
Proof.
  unfold worker_total.
  pose proof (ResolveThreadCount_range _ _ (wrap32_range (workerThreads cfg))
                (wrap32_range hc)).
  lia.
Qed.

Lemma cnt_replicate P n w :
  cnt P (replicate n w) = (if P (w_pc w) then n else 0)%nat.
Proof. induction n as [|n IH]; simpl; [by case_match|]. rewrite IH. case_match; lia. Qed.

Lemma ctor_Inv hc cfg :
  Inv (worker_total hc cfg) (JobSystem_ctor hc cfg) [].
Proof.
  pose proof (worker_total_range hc cfg).
  split; simpl; try done; try lia.
  - by rewrite cnt_replicate.
  - by rewrite cnt_replicate.
  - by rewrite length_replicate.
Qed.

Lemma Exec_Inv tel hc cfg acts s evs :
  Exec tel (JobSystem_ctor hc cfg) acts s evs → Inv (worker_total hc cfg) s evs.
Proof.
  induction 1 as [|acts s evs a s' e _ IH Hs]; [apply ctor_Inv|by eapply step_Inv].
Qed.

Lemma run_app tel a1 a2 s0 :
  run tel (a1 ++ a2) s0
  = match run tel a1 s0 with
    | Some (s1, e1) =>
        match run tel a2 s1 with
        | Some (s2, e2) => Some (s2, e1 ++ e2)
        | None => None
        end
    | None => None
    end.
Proof.
  revert s0. induction a1 as [|a r IH]; intros s0; simpl.
  - by destruct (run tel a2 s0) as [[??]|].
  - destruct (step tel a s0) as [[s1 e1]|]; [|done].
    rewrite IH. destruct (run tel r s1) as [[s2 e2]|]; [|done].
    destruct (run tel a2 s2) as [[s3 e3]|]; [|done].
    by rewrite app_assoc.
Qed.

Lemma run_Exec tel acts s0 s evs :
  run tel acts s0 = Some (s, evs) → Exec tel s0 acts s evs.
Proof.
  revert s evs. induction acts as [|a acts IH] using rev_ind; intros s evs H.
  - simpl in H. simplify_eq. constructor.
  - rewrite run_app in H.
    destruct (run tel acts s0) as [[s1 e1]|]; [|done]. simpl in H.
    destruct (step tel a s1) as [[s2 e2]|] eqn:Hs; [|done].
    simplify_eq. rewrite app_nil_r. econstructor; eauto.
Qed.

(** Every state an execution from the constructor reaches satisfies the
    invariant. *)
Lemma run_Inv tel hc cfg acts s evs :
  run tel acts (JobSystem_ctor hc cfg) = Some (s, evs) →
  Inv (worker_total hc cfg) s evs.
Proof. intros H. eapply Exec_Inv, run_Exec, H. Qed.

(** ** Consequences of the invariant for the counters *)

Lemma cnt_split ws :
  cnt inhand ws = (cnt uncounted ws + cnt mid_transition ws)%nat.
Proof.
  induction ws as [|w r IH]; simpl; [done|]. rewrite IH.
  destruct (w_pc w); simpl; lia.
Qed.

Lemma cnt_none P (ws : list Worker) :
  (∀ i w, ws !! i = Some w → P (w_pc w) = false) → cnt P ws = 0%nat.
Proof.
  induction ws as [|x r IH]; intros H; simpl; [done|].
  rewrite (H 0%nat x eq_refl), IH; [done|].
  intros i w Hi. exact (H (S i) w Hi).
Qed.

Lemma removed_length evs :
  length (removed evs) = (length (dequeued evs) + length (discarded evs))%nat.
Proof.
  induction evs as [|e r IH]; simpl; [done|].
  destruct e; simpl; rewrite ?length_app, ?IH; lia.
Qed.

Lemma wrap64_add_l a b : wrap64 (wrap64 a + b) = wrap64 (a + b).
Proof. unfold wrap64. by rewrite Zplus_mod_idemp_l. Qed.

(** Every accepted task is completed, in a worker's hands, queued or
    discarded. *)
Lemma Inv_accounting N s evs :
  Inv N s evs →
  Z.of_nat (length (enqueued evs))
  = Z.of_nat (length (completions evs)) + Z.of_nat (cnt uncounted (m_workers s))
    + Z.of_nat (length (m_queue s)) + Z.of_nat (length (discarded evs)).
Proof.
  intros HI.
  pose proof (f_equal length (inv_queue _ _ _ HI)) as Hq.
  rewrite length_app, removed_length in Hq.
  pose proof (inv_taken _ _ _ HI). lia.
Qed.

Lemma Inv_equation N s evs :
  Inv N s evs → no_mid_transition s →
  m_submitted s
  = wrap64 (m_completed s + m_inFlight s + Z.of_nat (length (m_queue s))
            + Z.of_nat (length (discarded evs))).
Proof.
  intros HI Hmid.
  rewrite (inv_submitted _ _ _ HI), (inv_completed _ _ _ HI),
    (inv_inFlight _ _ _ HI), cnt_split, (cnt_none mid_transition _ Hmid),
    (Inv_accounting _ _ _ HI).
  rewrite <- !Z.add_assoc, wrap64_add_l. f_equal. lia.
Qed.

(** ** The accepting flag *)

Lemma step_accepting tel a s s' e :
  step tel a s = Some (s', e) →
  is_stop_call a = false → m_accepting s' = m_accepting s.
Proof.
  intros Hs Ha. destruct a as [t c|t|i o]; simpl in Hs.
  - destruct (callers s !! t); [done|].
    destruct c; try done; by op_cases Hs.
  - destruct (callers s !! t) as [pc|]; [|done].
    destruct pc; by op_cases Hs.
  - destruct (m_workers s !! i) as [w|]; [|done].
    unfold worker_step in Hs. destruct (w_pc w); by op_cases Hs.
Qed.

(** The flag never goes back to true. *)
Lemma step_accepting_mono tel a s s' e :
  step tel a s = Some (s', e) → m_accepting s = false → m_accepting s' = false.
Proof.
  intros Hs Hf. destruct (is_stop_call a) eqn:Ha.
  - destruct a as [t c| |]; try done. simpl in Hs.
    destruct (callers s !! t); [done|].
    destruct c; try done; simpl in Hs; unfold JobSystem_dtor, Stop in Hs;
      rewrite Hf in Hs; by simplify_eq.
  - by rewrite (step_accepting _ _ _ _ _ Hs Ha).
Qed.

Lemma no_stop_calls_app a b :
  no_stop_calls (a ++ b) = no_stop_calls a && no_stop_calls b.
Proof. apply forallb_app. Qed.

Lemma Exec_no_stop tel s0 acts s evs :
  Exec tel s0 acts s evs →
  no_stop_calls acts = true → m_accepting s = m_accepting s0.
Proof.
  induction 1 as [|acts s evs a s' e _ IH Hs]; [done|].
  rewrite no_stop_calls_app. intros [H1 H2]%andb_prop.
  simpl in H2. rewrite andb_true_r in H2. apply negb_true_iff in H2.
  rewrite (step_accepting _ _ _ _ _ Hs H2). by apply IH.
Qed.

(** ** The counters *)

(** C1.  In every state an execution reaches, taken between critical
    sections and with no worker standing between its increment of
    [m_completed] and its decrement of [m_inFlight],
    submitted == completed + inFlight + queued + discarded holds in 64-bit
    unsigned arithmetic, where discarded counts the tasks a
    [Stop(CancelPending)] has cleared from the queue; with nothing
    discarded this is submitted == completed + inFlight + queued, and as
    long as fewer than 2^64 tasks were accepted the equation holds without
    any wrap-around. *)
Theorem counter_equation tel hc cfg acts s evs :
  run tel acts (JobSystem_ctor hc cfg) = Some (s, evs) →
  no_mid_transition s →
  m_submitted s
  = wrap64 (m_completed s + m_inFlight s + Z.of_nat (length (m_queue s))
            + Z.of_nat (length (discarded evs)))
  ∧ (discarded evs = [] →
     m_submitted s
     = wrap64 (m_completed s + m_inFlight s + Z.of_nat (length (m_queue s))))
  ∧ (Z.of_nat (length (enqueued evs)) < 2 ^ 64 →
     m_submitted s
     = m_completed s + m_inFlight s + Z.of_nat (length (m_queue s))
       + Z.of_nat (length (discarded evs))).
Proof.
  intros Hrun Hmid. apply run_Inv in Hrun as HI.
  pose proof (Inv_equation _ _ _ HI Hmid) as Heq.
  split; [exact Heq|]. split.
  - intros Hd. rewrite Heq, Hd. simpl. by rewrite Z.add_0_r.
  - intros Hsmall. pose proof (Inv_accounting _ _ _ HI) as Hacc.
    rewrite (inv_submitted _ _ _ HI), (inv_completed _ _ _ HI),
      (inv_inFlight _ _ _ HI), cnt_split, (cnt_none mid_transition _ Hmid).
    rewrite !wrap64_small; lia.
Qed.

Lemma counter_equation_witness :
  m_submitted (final false cancel_acts (JobSystem_ctor 1 cfg1))
  = wrap64 (m_completed (final false cancel_acts (JobSystem_ctor 1 cfg1))
            + m_inFlight (final false cancel_acts (JobSystem_ctor 1 cfg1))
            + Z.of_nat (length (m_queue (final false cancel_acts (JobSystem_ctor 1 cfg1))))
            + Z.of_nat (length (discarded (history false cancel_acts (JobSystem_ctor 1 cfg1))))).
Proof.
  refine (proj1 (counter_equation false 1 cfg1 cancel_acts _ _ _ _)).
  - vm_compute. reflexivity.
  - intros [|[|i]] w Hw; vm_compute in Hw; by simplify_eq.
Defined.

(** The condition on workers cannot be dropped: [m_completed] is bumped
    outside the lock (l.237), before the worker takes the lock to drop
    [m_inFlight] (l.241).  Between the two the finished task is counted
    twice. *)
Lemma counted_twice_mid_transition :
  ∃ s evs,
    run false (taken_acts ++ [AWorker 0 Returned; AWorker 0 Returned])
      (JobSystem_ctor 1 cfg1) = Some (s, evs)
    ∧ cnt mid_transition (m_workers s) = 1%nat
    ∧ m_submitted s = 1
    ∧ m_completed s + m_inFlight s + Z.of_nat (length (m_queue s)) = 2.
Proof. do 2 eexists. split; [vm_compute; reflexivity|]. done. Qed.

(** C3, as the specification states it, fails: with one task running and
    one queued, the discard of [Stop(CancelPending)] leaves submitted = 2
    against completed + inFlight = 1. *)
Lemma discard_equation_counterexample :
  ∃ s evs s' e,
    run false cancel_acts (JobSystem_ctor 1 cfg1) = Some (s, evs)
    ∧ callers s !! 1%nat = Some (PStopLock CancelPending)
    ∧ step false (AResume 1) s = Some (s', e)
    ∧ e = [EvDiscard (m_queue s)]
    ∧ cnt mid_transition (m_workers s') = 0%nat
    ∧ m_completed s' = m_completed s
    ∧ m_submitted s' = 2
    ∧ m_completed s' + m_inFlight s' = 1
    ∧ m_submitted s' ≠ wrap64 (m_completed s' + m_inFlight s').
Proof.
  do 4 eexists. split; [vm_compute; reflexivity|].
  split; [vm_compute; reflexivity|].
  split; [vm_compute; reflexivity|].
  split_and!; done.
Qed.

(** C3, amended.  The discard of [Stop(CancelPending)] empties the queue
    and leaves [m_completed] as it was; afterwards, with no worker
    mid-transition, submitted == completed + inFlight + d in 64-bit
    unsigned arithmetic, where d is the number of tasks the discard
    dropped. *)
Theorem discard_equation tel hc cfg acts s evs t s' e :
  run tel acts (JobSystem_ctor hc cfg) = Some (s, evs) →
  callers s !! t = Some (PStopLock CancelPending) →
  step tel (AResume t) s = Some (s', e) →
  no_mid_transition s' →
  e = [EvDiscard (m_queue s)]
  ∧ m_queue s' = []
  ∧ m_completed s' = m_completed s
  ∧ m_submitted s'
    = wrap64 (m_completed s' + m_inFlight s' + Z.of_nat (length (m_queue s))).
Proof.
  intros Hrun Hc Hs Hmid. apply run_Inv in Hrun as HI.
  pose proof (step_Inv _ _ _ _ _ _ _ HI Hs) as HI'.
  pose proof (Inv_equation _ _ _ HI' Hmid) as Heq.
  simpl in Hs. rewrite Hc in Hs. simpl in Hs. unfold Stop_locked in Hs.
  simplify_eq/=. split_and!; try done.
  rewrite discarded_app, (inv_stop_lock _ _ _ HI _ _ Hc) in Heq.
  unfold discarded in Heq. simpl in Heq.
  by rewrite app_nil_r, Z.add_0_r in Heq.
Qed.

Lemma discard_equation_witness :
  history false [AResume 1] (final false cancel_acts (JobSystem_ctor 1 cfg1))
  = [EvDiscard (m_queue (final false cancel_acts (JobSystem_ctor 1 cfg1)))]
  ∧ m_queue (final false (cancel_acts ++ [AResume 1]) (JobSystem_ctor 1 cfg1)) = []
  ∧ m_completed (final false (cancel_acts ++ [AResume 1]) (JobSystem_ctor 1 cfg1))
    = m_completed (final false cancel_acts (JobSystem_ctor 1 cfg1))
  ∧ m_submitted (final false (cancel_acts ++ [AResume 1]) (JobSystem_ctor 1 cfg1))
    = wrap64
        (m_completed (final false (cancel_acts ++ [AResume 1]) (JobSystem_ctor 1 cfg1))
         + m_inFlight (final false (cancel_acts ++ [AResume 1]) (JobSystem_ctor 1 cfg1))
         + Z.of_nat
             (length (m_queue (final false cancel_acts (JobSystem_ctor 1 cfg1))))).
Proof.
  refine (discard_equation false 1 cfg1 cancel_acts _ _ 1%nat _ _ _ _ _ _).
  - vm_compute. reflexivity.
  - vm_compute. reflexivity.
  - vm_compute. reflexivity.
  - intros [|[|i]] w Hw; vm_compute in Hw; by simplify_eq.
Defined.

(** ** WaitIdle *)

(** C4.  [WaitIdle] can return exactly when the queue is empty and
    [m_inFlight] is 0, both read in one critical section; and in an
    execution without any call of [Stop], the state in which it returns
    has completed == submitted, queued == 0 and inFlight == 0 (and
    [WaitIdle] itself changes nothing). *)
Theorem WaitIdle_returns_idle tel hc cfg acts s evs t :
  run tel acts (JobSystem_ctor hc cfg) = Some (s, evs) →
  no_stop_calls acts = true →
  (is_Some (step tel (ACall t CWaitIdle) s)
   ↔ callers s !! t = None ∧ m_queue s = [] ∧ m_inFlight s = 0)
  ∧ (∀ s' e,
       step tel (ACall t CWaitIdle) s = Some (s', e) →
       s' = s ∧ e = [EvWaitIdleRet t]
       ∧ m_completed s = m_submitted s
       ∧ Z.of_nat (length (m_queue s)) = 0
       ∧ m_inFlight s = 0).
Proof.
  intros Hrun Hns.
  assert (∀ s' e, step tel (ACall t CWaitIdle) s = Some (s', e) →
            s' = s ∧ e = [EvWaitIdleRet t] ∧ callers s !! t = None
            ∧ m_queue s = [] ∧ m_inFlight s = 0) as Hret.
  { intros s' e Hs. simpl in Hs.
    destruct (callers s !! t); [done|]. simpl in Hs.
    unfold WaitIdle, WaitIdle_pred in Hs.
    destruct (m_queue s); [|done]. simpl in Hs.
    destruct (m_inFlight s =? 0) eqn:Hz; [|done].
    apply Z.eqb_eq in Hz. by simplify_eq. }
  split.
  - split.
    + intros [[s' e] Hs]. by destruct (Hret _ _ Hs) as (_ & _ & ? & ? & ?).
    + intros (Hc & Hq & Hz). simpl. rewrite Hc. simpl.
      unfold WaitIdle, WaitIdle_pred. rewrite Hq, Hz. by eexists.
  - intros s' e Hs. destruct (Hret _ _ Hs) as (-> & -> & Hc & Hq & Hz).
    split_and!; try done; [|by rewrite Hq].
    apply run_Inv in Hrun as HI.
    pose proof (run_Exec _ _ _ _ _ Hrun) as HE.
    pose proof (Exec_no_stop _ _ _ _ _ HE Hns) as Hacc. simpl in Hacc.
    destruct (inv_accepting _ _ _ HI Hacc) as [Hd _].
    pose proof (Inv_accounting _ _ _ HI) as Hcount.
    pose proof (inv_inFlight _ _ _ HI) as Hin.
    rewrite cnt_split in Hin.
    rewrite (inv_submitted _ _ _ HI), (inv_completed _ _ _ HI).
    f_equal. rewrite Hcount, Hd, Hq. simpl. lia.
Qed.

Lemma WaitIdle_returns_idle_witness :
  (is_Some (step false (ACall 5 CWaitIdle)
              (final false done_acts (JobSystem_ctor 1 cfg1)))
   ↔ callers (final false done_acts (JobSystem_ctor 1 cfg1)) !! 5%nat = None
     ∧ m_queue (final false done_acts (JobSystem_ctor 1 cfg1)) = []
     ∧ m_inFlight (final false done_acts (JobSystem_ctor 1 cfg1)) = 0)
  ∧ (∀ s' e,
       step false (ACall 5 CWaitIdle)
         (final false done_acts (JobSystem_ctor 1 cfg1)) = Some (s', e) →
       s' = final false done_acts (JobSystem_ctor 1 cfg1)
       ∧ e = [EvWaitIdleRet 5]
       ∧ m_completed (final false done_acts (JobSystem_ctor 1 cfg1))
         = m_submitted (final false done_acts (JobSystem_ctor 1 cfg1))
       ∧ Z.of_nat (length (m_queue (final false done_acts (JobSystem_ctor 1 cfg1)))) = 0
       ∧ m_inFlight (final false done_acts (JobSystem_ctor 1 cfg1)) = 0).
Proof.
  refine (WaitIdle_returns_idle false 1 cfg1 done_acts _
            (history false done_acts (JobSystem_ctor 1 cfg1)) 5%nat _ _).
  - vm_compute. reflexivity.
  - vm_compute. reflexivity.
Defined.

(** ** The queue *)

Lemma step_dequeue tel i o s s' e j item :
  step tel (AWorker i o) s = Some (s', e) →
  In (EvDequeue j item) e →
  ∃ rest, m_queue s = item :: rest ∧ m_queue s' = rest ∧ e = [EvDequeue i item].
Proof.
  intros Hs Hin. simpl in Hs. destruct (m_workers s !! i) as [w|]; [|done].
  unfold worker_step in Hs.
  destruct (w_pc w); op_cases Hs; try done;
    (destruct Hin as [Hin|Hin]; [|done]); simplify_eq; eauto.
Qed.

(** C9.  At every moment the queue holds, in order, the tasks pushed so
    far minus those already removed from its front; a submission appends
    at the back, and the task a worker takes is the head: the earliest
    pushed among the tasks still present. *)
Theorem queue_fifo tel hc cfg acts s evs i o s' e item :
  run tel acts (JobSystem_ctor hc cfg) = Some (s, evs) →
  step tel (AWorker i o) s = Some (s', e) →
  In (EvDequeue i item) e →
  ∃ rest,
    m_queue s = item :: rest
    ∧ m_queue s' = rest
    ∧ enqueued evs = removed evs ++ item :: rest
    ∧ enqueued (evs ++ e) = removed (evs ++ e) ++ rest.
Proof.
  intros Hrun Hs Hin. apply run_Inv in Hrun as HI.
  pose proof (step_Inv _ _ _ _ _ _ _ HI Hs) as HI'.
  pose proof (inv_queue _ _ _ HI) as Hq.
  pose proof (inv_queue _ _ _ HI') as Hq'.
  destruct (step_dequeue _ _ _ _ _ _ _ _ Hs Hin) as (rest & H1 & H2 & _).
  exists rest. rewrite H1 in Hq. rewrite H2 in Hq'. done.
Qed.

Lemma queue_fifo_witness :
  ∃ rest,
    m_queue (final false queued_acts (JobSystem_ctor 1 cfg1))
    = {| item_fn := Some 7%nat; item_id := 0; item_label := None |} :: rest
    ∧ m_queue (final false (queued_acts ++ [AWorker 0 Returned]) (JobSystem_ctor 1 cfg1))
      = rest
    ∧ enqueued (history false queued_acts (JobSystem_ctor 1 cfg1))
      = removed (history false queued_acts (JobSystem_ctor 1 cfg1))
        ++ {| item_fn := Some 7%nat; item_id := 0; item_label := None |} :: rest
    ∧ enqueued (history false queued_acts (JobSystem_ctor 1 cfg1)
                ++ history false [AWorker 0 Returned]
                     (final false queued_acts (JobSystem_ctor 1 cfg1)))
      = removed (history false queued_acts (JobSystem_ctor 1 cfg1)
                 ++ history false [AWorker 0 Returned]
                      (final false queued_acts (JobSystem_ctor 1 cfg1)))
        ++ rest.
Proof.
  refine (queue_fifo false 1 cfg1 queued_acts _ _ 0%nat Returned _ _ _ _ _ _).
  - vm_compute. reflexivity.
  - vm_compute. reflexivity.
  - vm_compute. left. reflexivity.
Defined.

(** ** Submission *)





Lemma run_cons tel a rest s :
  run tel (a :: rest) s
  = match step tel a s with
    | None => None
    | Some (s1, e1) =>
        match run tel rest s1 with
        | None => None
        | Some (s2, e2) => Some (s2, e1 ++ e2)
        end
    end.
Proof. reflexivity. Qed.

(** C10.  [Submit(t)] is [SubmitLabeled(nullptr, t)]: the two calls take
    the same first step from every state, and every execution that starts
    with one is, state for state and return value for return value, the
    execution that starts with the other. *)
Theorem Submit_is_SubmitLabeled_nullptr tel t task s rest :
  Submit t task s = SubmitLabeled t None task s
  ∧ step tel (ACall t (CSubmit task)) s
    = step tel (ACall t (CSubmitLabeled None task)) s
  ∧ run tel (ACall t (CSubmit task) :: rest) s
    = run tel (ACall t (CSubmitLabeled None task) :: rest) s.
Proof.
  assert (step tel (ACall t (CSubmit task)) s
          = step tel (ACall t (CSubmitLabeled None task)) s) as Hstep.
  { simpl. destruct (callers s !! t); [done|]. simpl. by unfold Submit. }
  split; [by unfold Submit|]. split; [exact Hstep|].
  by rewrite !run_cons, Hstep.
Qed.

(** ** Shutdown *)





Lemma stop_called_app a b : stop_called (a ++ b) = stop_called a || stop_called b.
Proof. apply existsb_app. Qed.

(** Once [Stop] has been entered the flag is cleared. *)
Lemma Exec_stop_called tel s0 acts s evs :
  Exec tel s0 acts s evs → stop_called acts = true → m_accepting s = false.
Proof.
  induction 1 as [|acts s evs a s' e _ IH Hs]; [done|].
  rewrite stop_called_app. simpl. rewrite orb_false_r.
  destruct (stop_called acts).
  - intros _. eapply step_accepting_mono; [exact Hs|by apply IH].
  - simpl. intros Ha. destruct a as [t c| |]; try done. simpl in Hs.
    destruct (callers s !! t); [done|].
    destruct c; try done; simpl in Hs; unfold JobSystem_dtor, Stop in Hs;
      destruct (m_accepting s) eqn:Hacc; by simplify_eq.
Qed.


(** C7.  Once some call of [Stop] has been entered (whether it is still
    running or has returned), a further call of [Stop], in either mode, or
    of the destructor, returns in its first step, performs none of the
    shutdown work and leaves the state exactly as it was. *)
Theorem Stop_idempotent tel hc cfg acts s evs t mode :
  run tel acts (JobSystem_ctor hc cfg) = Some (s, evs) →
  stop_called acts = true →
  callers s !! t = None →
  m_accepting s = false
  ∧ step tel (ACall t (CStop mode)) s = Some (s, [EvStopRet t false])
  ∧ step tel (ACall t CDestroy) s = Some (s, [EvStopRet t false]).
Proof.
  intros Hrun Hcalled Hc.
  pose proof (Exec_stop_called _ _ _ _ _ (run_Exec _ _ _ _ _ Hrun) Hcalled) as Hf.
  split; [done|].
  simpl. rewrite Hc. simpl. unfold JobSystem_dtor, Stop. by rewrite Hf.
Qed.


Lemma Stop_idempotent_witness :
  m_accepting (final false stop_acts (JobSystem_ctor 1 cfg1)) = false
  ∧ step false (ACall 2 (CStop CancelPending))
      (final false stop_acts (JobSystem_ctor 1 cfg1))
    = Some (final false stop_acts (JobSystem_ctor 1 cfg1), [EvStopRet 2 false])
  ∧ step false (ACall 2 CDestroy) (final false stop_acts (JobSystem_ctor 1 cfg1))
    = Some (final false stop_acts (JobSystem_ctor 1 cfg1), [EvStopRet 2 false]).
Proof.
  refine (Stop_idempotent false 1 cfg1 stop_acts _
            (history false stop_acts (JobSystem_ctor 1 cfg1)) 2%nat CancelPending
            _ _ _).
  - vm_compute. reflexivity.
  - vm_compute. reflexivity.
  - vm_compute. reflexivity.
Defined.

(** ** The worker count *)

Lemma count_ok_app N evs e st : count_ok N evs st → count_ok N (evs ++ e) st.
Proof.
  intros [H|[H1 H2]]; [by left|right].
  split; [done|]. by rewrite stop_performed_app, H2.
Qed.

Lemma wrap32_small z : 0 ≤ z < 2 ^ 32 → wrap32 z = z.
Proof. intros. unfold wrap32. by apply Z.mod_small. Qed.

(** The size of [m_workers] as [GetStats] reads it. *)
Lemma Inv_worker_count N s evs :
  Inv N s evs →
  wrap32 (Z.of_nat (length (m_workers s)))
  = if stop_performed evs then 0 else Z.of_nat N.
Proof.
  intros HI. rewrite (inv_workers _ _ _ HI).
  pose proof (inv_N _ _ _ HI).
  destruct (stop_performed evs); [done|]. apply wrap32_small. lia.
Qed.

(** A pending [GetStats] other than the one that moved keeps its count. *)
Ltac stats_pc Hpc :=
  intros t1 k1 acc1 Hl; simpl in Hl; map_field;
  try (eapply count_ok_app, Hpc; eassumption).

Lemma step_StatsInv tel N a s evs s' e :
  Inv N s evs → StatsInv N s evs →
  step tel a s = Some (s', e) → StatsInv N s' (evs ++ e).
Proof.
  intros HI [Hpc Hev] Hs.
  pose proof (Inv_worker_count _ _ _ HI) as Hwc.
  assert (∀ t st, In (EvStats t st) evs → count_ok N (evs ++ e) st) as Hev'.
  { intros t st Hin. eapply count_ok_app, Hev, Hin. }
  destruct a as [t c|t|i o]; simpl in Hs.
  - destruct (callers s !! t) eqn:Hc; [done|].
    destruct c; op_cases Hs.
    all: split;
      [stats_pc Hpc
      |intros t1 st1 [Hin|Hin]%in_app_or; [by eapply Hev'|];
       simpl in Hin; intuition simplify_eq].
    all: unfold count_ok; simpl; rewrite Hwc, app_nil_r;
      destruct (stop_performed evs); auto.
  - destruct (callers s !! t) as [pc|] eqn:Hc; [|done].
    destruct pc; op_cases Hs.
    all: split;
      [stats_pc Hpc
      |intros t1 st1 [Hin|Hin]%in_app_or; [by eapply Hev'|];
       simpl in Hin; intuition simplify_eq].
    all: try (eapply count_ok_app; exact (Hpc _ _ _ Hc)).
  - destruct (m_workers s !! i) as [w|] eqn:Hw; [|done].
    unfold worker_step in Hs. destruct (w_pc w); op_cases Hs.
    all: split;
      [stats_pc Hpc
      |intros t1 st1 [Hin|Hin]%in_app_or; [by eapply Hev'|];
       simpl in Hin; intuition simplify_eq].
Qed.

Lemma Exec_StatsInv tel hc cfg acts s evs :
  Exec tel (JobSystem_ctor hc cfg) acts s evs →
  StatsInv (worker_total hc cfg) s evs.
Proof.
  induction 1 as [|acts s evs a s' e HE IH Hs].
  - split; [intros t k acc Hl; simpl in Hl; by rewrite lookup_empty in Hl|done].
  - eapply step_StatsInv; [by eapply Exec_Inv|exact IH|exact Hs].
Qed.

(** C8, as the specification states it, fails: built with
    [workerThreads = 1], once a [Stop] has run to its end [GetStats]
    reports a worker count of 0. *)
Lemma worker_count_counterexample :
  ∃ s evs t st,
    run false (stop_acts ++ stats_acts 2) (JobSystem_ctor 8 cfg1) = Some (s, evs)
    ∧ In (EvStats t st) evs
    ∧ workerThreads cfg1 = 1
    ∧ workerCount st = 0.
Proof.
  do 4 eexists. split; [vm_compute; reflexivity|].
  split; [right; left; reflexivity|]. done.
Qed.

(** C8, amended.  The pool is built with [workerThreads] workers when that
    is non-zero, and otherwise with as many as the platform reports, or 1
    if it reports 0: at least one in every case.  Until a [Stop] has
    destroyed the workers, that number is the size of [m_workers] and the
    worker count every [GetStats] reports.  Once a [Stop] has destroyed
    them, [m_workers] is empty, and a [GetStats] reports that number or
    0. *)
Theorem worker_count tel hc cfg acts s evs t st :
  0 ≤ hc < 2 ^ 32 →
  0 ≤ workerThreads cfg < 2 ^ 32 →
  run tel acts (JobSystem_ctor hc cfg) = Some (s, evs) →
  In (EvStats t st) evs →
  (stop_performed evs = false →
   workerCount st = ResolveThreadCount (workerThreads cfg) hc
   ∧ Z.of_nat (length (m_workers s)) = ResolveThreadCount (workerThreads cfg) hc)
  ∧ (stop_performed evs = true →
     m_workers s = []
     ∧ (workerCount st = ResolveThreadCount (workerThreads cfg) hc
        ∨ workerCount st = 0))
  ∧ (workerThreads cfg ≠ 0 →
     ResolveThreadCount (workerThreads cfg) hc = workerThreads cfg)
  ∧ (workerThreads cfg = 0 → hc ≠ 0 →
     ResolveThreadCount (workerThreads cfg) hc = hc)
  ∧ (workerThreads cfg = 0 → hc = 0 →
     ResolveThreadCount (workerThreads cfg) hc = 1)
  ∧ 1 ≤ ResolveThreadCount (workerThreads cfg) hc.
Proof.
  intros Hhc Hwt Hrun Hin.
  pose proof (run_Exec _ _ _ _ _ Hrun) as HE.
  pose proof (Exec_Inv _ _ _ _ _ _ HE) as HI.
  pose proof (si_ev _ _ _ (Exec_StatsInv _ _ _ _ _ _ HE) _ _ Hin) as Hok.
  pose proof (inv_workers _ _ _ HI) as Hlen.
  pose proof (ResolveThreadCount_range _ _ Hwt Hhc) as Hr.
  assert (Z.of_nat (worker_total hc cfg)
          = ResolveThreadCount (workerThreads cfg) hc) as HN.
  { unfold worker_total. rewrite !wrap32_small by done. lia. }
  unfold count_ok in Hok. rewrite HN in Hok.
  split_and!.
  - intros Hsp. rewrite Hsp in Hlen. destruct Hok as [Hok|[_ Hok]]; [|congruence].
    split; [done|]. by rewrite Hlen.
  - intros Hsp. rewrite Hsp in Hlen. split.
    + by destruct (m_workers s).
    + destruct Hok as [Hok|[Hok _]]; auto.
  - intros Hne. unfold ResolveThreadCount.
    apply Z.eqb_neq in Hne. by rewrite Hne.
  - intros H0 Hne. unfold ResolveThreadCount. rewrite H0. simpl.
    apply Z.eqb_neq in Hne. by rewrite Hne.
  - intros H0 H1. unfold ResolveThreadCount. by rewrite H0, H1.
  - lia.
Qed.

Lemma worker_count_witness :
  (stop_performed (history false (stats_acts 2) (JobSystem_ctor 0 cfg1)) = false →
   workerCount
     {| workerCount := 1; queued := 0; inFlight := 0; submitted := 0; completed := 0 |}
   = ResolveThreadCount (workerThreads cfg1) 0
   ∧ Z.of_nat (length (m_workers (final false (stats_acts 2) (JobSystem_ctor 0 cfg1))))
     = ResolveThreadCount (workerThreads cfg1) 0)
  ∧ (stop_performed (history false (stats_acts 2) (JobSystem_ctor 0 cfg1)) = true →
     m_workers (final false (stats_acts 2) (JobSystem_ctor 0 cfg1)) = []
     ∧ (workerCount
          {| workerCount := 1; queued := 0; inFlight := 0; submitted := 0;
             completed := 0 |}
        = ResolveThreadCount (workerThreads cfg1) 0
        ∨ workerCount
            {| workerCount := 1; queued := 0; inFlight := 0; submitted := 0;
               completed := 0 |} = 0))
  ∧ (workerThreads cfg1 ≠ 0 →
     ResolveThreadCount (workerThreads cfg1) 0 = workerThreads cfg1)
  ∧ (workerThreads cfg1 = 0 → 0 ≠ 0 →
     ResolveThreadCount (workerThreads cfg1) 0 = 0)
  ∧ (workerThreads cfg1 = 0 → 0 = 0 →
     ResolveThreadCount (workerThreads cfg1) 0 = 1)
  ∧ 1 ≤ ResolveThreadCount (workerThreads cfg1) 0.
Proof.
  refine (worker_count false 0 cfg1 (stats_acts 2) _ _ 2%nat _ _ _ _ _).
  - lia.
  - simpl. lia.
  - vm_compute. reflexivity.
  - vm_compute. left. reflexivity.
Defined.

(** * Further properties *)

(** ** The second invariant *)

Lemma ran_app a b : ran (a ++ b) = ran a ++ ran b.
Proof. apply flat_map_app. Qed.
Lemma accepted_returns_app a b :
  accepted_returns (a ++ b) = accepted_returns a ++ accepted_returns b.
Proof. apply flat_map_app. Qed.
Lemma performed_returns_app a b :
  performed_returns (a ++ b) = performed_returns a ++ performed_returns b.
Proof. apply flat_map_app. Qed.
Lemma discards_app a b : discards (a ++ b) = discards a ++ discards b.
Proof. apply flat_map_app. Qed.

Ltac hist_simpl2 :=
  rewrite ?ran_app, ?accepted_returns_app, ?performed_returns_app, ?discards_app;
  hist_simpl.

(** Split a lookup in the updated vector of workers into the worker that
    moved and the others. *)
Ltac ws_field :=
  repeat match goal with
  | H : <[_ := _]> _ !! _ = Some _ |- _ =>
      apply list_lookup_insert_Some in H; destruct H as [(? & ? & ?)|[? H]]
  | H : @lookup nat Worker (list Worker) _ _ [] = Some _ |- _ =>
      by rewrite lookup_nil in H
  end; simplify_eq/=.

Ltac open_invs HI HJ :=
  destruct HI as [HN Hsub Hcomp Hinf Hq Htk Hws Hacc Hsa Hsu Hsl Hsok];
  destruct HJ as [Jran Jcompl Jacc Jflag Jleft Jqfn Jhfn Jclr Jperf Jper Jd Jda Jdl].

(** After a performed shutdown no thread is inside [Stop], the flag is
    cleared and the queue is empty. *)
Ltac perf_close Jperf :=
  let Hp := fresh in
  intros Hp; destruct (Jperf Hp) as (? & ? & Hno);
  try congruence;
  try match goal with
      | Hc : callers _ !! _ = Some _ |- _ =>
          let K := fresh in pose proof (Hno _ _ Hc) as K; simpl in K; discriminate
      end;
  split_and!; try done;
  intros; map_field; try done; eauto.

Lemma step_Inv2 tel N a s evs s' e :
  Inv N s evs → Inv2 s evs →
  step tel a s = Some (s', e) → Inv2 s' (evs ++ e).
Proof.
  intros HI HJ Hs.
  destruct a as [t c|t|i o]; simpl in Hs.
  - destruct (callers s !! t) eqn:Hc; [done|].
    destruct c; op_cases Hs; bool_norm; open_invs HI HJ.
    all: split; simpl; hist_simpl2; try done.
    all: try (intros; map_field; caller_close).
    all: perf_close Jperf.
  - destruct (callers s !! t) as [pc|] eqn:Hc; [|done].
    destruct pc; op_cases Hs; bool_norm; open_invs HI HJ.
    all: split; simpl; hist_simpl2; try done.
    all: try (intros; map_field; caller_close).
    all: try perf_close Jperf.
    all: try (intros; ws_field; eauto; done).
    + (* push: no worker has left the loop while the flag is set *)
      intros i w Hl Hleft. destruct (Jleft _ _ Hl Hleft) as [Hst _].
      pose proof (Jflag _ _ Hl Hst). congruence.
    + intros x [Hx|Hx]%elem_of_app; [by eauto|].
      apply list_elem_of_singleton in Hx as ->. exact (Hsok _ _ Hc).
    + intros t0 pc Hl Hcl. map_field. exfalso.
      assert (is_stop pc = true) as Hst by (by destruct pc as [| | |[]|[]| |]).
      pose proof (Hsa _ _ Hl Hst). congruence.
    + intros i w Hl Hleft. by destruct (Jleft _ _ Hl Hleft).
    + by intros x ?%elem_of_nil.
    + rewrite (Jdl _ _ Hc). simpl. lia.
    + match goal with H : m_workers _ !! _ = Some _ |- _ =>
        pose proof (cnt_insert running _ _ _ (w_pc w) true H) end. lia.
    + match goal with H : m_workers _ !! _ = Some _ |- _ =>
        pose proof (cnt_insert just_ran _ _ _ (w_pc w) true H) end. lia.
    + intros i w0 Hl Hleft. ws_field.
      * match goal with H : m_workers _ !! _ = Some _ |- _ =>
          by destruct (Jleft _ _ H Hleft) end.
      * eauto.
    + intros t0 pc Hl Hcl. map_field; [|by eauto].
      match goal with H : WaitIdle_pred _ = true |- _ =>
        unfold WaitIdle_pred in H; by destruct (m_queue s) end.
    + rewrite cnt_exited in Jran; [lia|done..].
    + rewrite cnt_exited in Jcompl; [lia|done..].
    + intros _. split_and!.
      * exact (Jclr _ _ Hc eq_refl).
      * exact (Hsa _ _ Hc eq_refl).
      * intros t0 pc Hl. map_field. destruct (is_stop pc) eqn:Hst; [|done].
        exfalso. pose proof (Hsu _ _ _ _ Hc Hl eq_refl Hst). congruence.
    + destruct (stop_performed evs) eqn:Hsp; [|lia].
      destruct (Jperf eq_refl) as (_ & _ & Hno).
      pose proof (Hno _ _ Hc) as K. simpl in K. discriminate.
  - destruct (m_workers s !! i) as [w|] eqn:Hw; [|done].
    unfold worker_step in Hs.
    destruct (w_pc w) eqn:Hpc; op_cases Hs; bool_norm; open_invs HI HJ.
    all: split; simpl; hist_simpl2; try done.
    all: try (intros; map_field; caller_close).
    all: try perf_close Jperf.
    all: try (intros; ws_field; eauto; done).
    all: try match goal with |- context [cnt ?P (<[_ := {| w_pc := ?pc; w_stop := ?st |}]> _)] =>
      let K := fresh in
      pose proof (cnt_insert P _ _ _ pc st Hw) as K; rewrite Hpc in K; simpl in K; lia end.
    + (* take: the queue was not empty, so no worker had left the loop *)
      intros i0 w0 Hl Hleft. ws_field.
      destruct (Jleft _ _ Hl Hleft) as [_ Hnil]. congruence.
    + intros x Hx. apply Jqfn.
      match goal with H : m_queue s = _ |- _ => rewrite H end.
      by apply elem_of_cons; right.
    + intros i0 w0 task Hl Hrun. ws_field; [|by eauto].
      apply Jqfn.
      match goal with H : m_queue s = _ |- _ => rewrite H end.
      by apply elem_of_cons; left.
    + intros t0 pc Hl Hcl. pose proof (Jclr _ _ Hl Hcl). congruence.
    + intros i0 w0 Hl Hleft. ws_field; [|by eauto].
      apply (Jleft _ _ Hw). by rewrite Hpc.
Qed.

Lemma ctor_Inv2 hc cfg : Inv2 (JobSystem_ctor hc cfg) [].
Proof.
  split; simpl; try done.
  - by rewrite cnt_replicate.
  - by rewrite cnt_replicate.
  - intros i w [-> _]%lookup_replicate. done.
  - intros i w [-> _]%lookup_replicate. done.
  - by intros x ?%elem_of_nil.
  - intros i w task [-> _]%lookup_replicate. done.
  - lia.
Qed.

Lemma Exec_Inv2 tel hc cfg acts s evs :
  Exec tel (JobSystem_ctor hc cfg) acts s evs → Inv2 s evs.
Proof.
  induction 1 as [|acts s evs a s' e HE IH Hs]; [apply ctor_Inv2|].
  eapply step_Inv2; [by eapply Exec_Inv|exact IH|exact Hs].
Qed.

Lemma run_Inv2 tel hc cfg acts s evs :
  run tel acts (JobSystem_ctor hc cfg) = Some (s, evs) → Inv2 s evs.
Proof. intros H. eapply Exec_Inv2, run_Exec, H. Qed.

(** ** Which tasks the workers hold *)

Lemma held_insert (ws : list Worker) i w w' :
  ws !! i = Some w →
  held (<[i := w']> ws) ++ holding (w_pc w) ≡ₚ held ws ++ holding (w_pc w').
Proof.
  revert i. induction ws as [|x r IH]; intros [|i] H; simplify_eq/=.
  - unfold held. simpl. fold (held r). solve_Permutation.
  - unfold held. simpl. fold (held r) (held (<[i:=w']> r)).
    rewrite <- !app_assoc. f_equiv. by apply IH.
Qed.

Lemma held_exited ws : forallb exited ws = true → held ws = [].
Proof.
  induction ws as [|x r IH]; simpl; [done|].
  intros [Hx Hr]%andb_prop. unfold held. simpl. fold (held r).
  rewrite (IH Hr). unfold exited in Hx. by destruct (w_pc x).
Qed.

Lemma held_replicate n w : holding (w_pc w) = [] → held (replicate n w) = [].
Proof.
  intros Hw. induction n as [|n IH]; [done|].
  unfold held. simpl. fold (held (replicate n w)). by rewrite Hw, IH.
Qed.

Lemma removed_perm evs : removed evs ≡ₚ dequeued evs ++ discarded evs.
Proof.
  induction evs as [|e r IH]; simpl; [done|].
  destruct e; simpl; try done.
  - by f_equiv.
  - rewrite IH. solve_Permutation.
Qed.

(** A task enters the hands of a worker only by being taken off the
    queue, and leaves them only by being called; and it is that very task. *)
Lemma step_held_balance tel a s s' e :
  step tel a s = Some (s', e) →
  held (m_workers s') ++ ran e ≡ₚ held (m_workers s) ++ dequeued e.
Proof.
  intros Hs. destruct a as [t c|t|i o]; simpl in Hs.
  - destruct (callers s !! t); [done|]. destruct c; by op_cases Hs.
  - destruct (callers s !! t) as [pc|]; [|done].
    destruct pc; op_cases Hs; try done.
    + match goal with H : m_workers _ !! _ = Some _ |- _ =>
        pose proof (held_insert _ _ _ {| w_pc := w_pc w; w_stop := true |} H) as K
      end.
      simpl in K. rewrite !app_nil_r. by apply (inj (.++ holding (w_pc w))) in K.
    + by rewrite held_exited.
  - destruct (m_workers s !! i) as [w|] eqn:Hw; [|done].
    unfold worker_step in Hs.
    destruct (w_pc w) eqn:Hpc; op_cases Hs; try done.
    all: match goal with
         | |- context [<[_ := ?w']> (m_workers _)] =>
             pose proof (held_insert _ _ _ w' Hw) as K; rewrite Hpc in K;
             simpl in K; rewrite ?app_nil_r in *; done
         end.
Qed.

Lemma run_held_balance tel acts s s' e :
  run tel acts s = Some (s', e) →
  held (m_workers s') ++ ran e ≡ₚ held (m_workers s) ++ dequeued e.
Proof.
  revert s s' e. induction acts as [|a acts IH]; intros s s' e Hrun.
  - simpl in Hrun. by simplify_eq.
  - simpl in Hrun. destruct (step tel a s) as [[s1 e1]|] eqn:Hs; [|done].
    destruct (run tel acts s1) as [[s2 e2]|] eqn:Hr; [|done]. simplify_eq.
    pose proof (step_held_balance _ _ _ _ _ Hs) as H1.
    pose proof (IH _ _ _ Hr) as H2.
    rewrite ran_app, dequeued_app.
    rewrite (Permutation_app_comm (ran e1)), app_assoc, H2.
    rewrite <- app_assoc, (Permutation_app_comm (dequeued e2)), app_assoc, H1.
    by rewrite <- app_assoc.
Qed.

(** Every accepted task, item by item: called, held, queued or
    discarded. *)
Lemma run_items tel hc cfg acts s evs :
  run tel acts (JobSystem_ctor hc cfg) = Some (s, evs) →
  dequeued evs ≡ₚ ran evs ++ held (m_workers s)
  ∧ enqueued evs
    ≡ₚ ran evs ++ held (m_workers s) ++ m_queue s ++ discarded evs.
Proof.
  intros Hrun. pose proof (run_held_balance _ _ _ _ _ Hrun) as Hb.
  simpl in Hb. rewrite held_replicate in Hb by done. simpl in Hb.
  assert (dequeued evs ≡ₚ ran evs ++ held (m_workers s)) as Hd
    by (by rewrite <- Hb, Permutation_app_comm).
  split; [done|].
  rewrite (inv_queue _ _ _ (run_Inv _ _ _ _ _ _ Hrun)), removed_perm, Hd.
  solve_Permutation.
Qed.

(** ** What becomes of an accepted task *)

Lemma removed_no_discard evs : discarded evs = [] → removed evs = dequeued evs.
Proof.
  induction evs as [|e r IH]; simpl; [done|].
  destruct e; simpl; try done.
  - intros H. by rewrite IH.
  - intros [-> H]%app_eq_nil. by rewrite IH.
Qed.

Lemma dequeued_sublist_removed evs : dequeued evs `sublist_of` removed evs.
Proof.
  induction evs as [|e r IH]; simpl; [done|].
  destruct e; simpl; try done.
  - by apply sublist_skip.
  - by apply sublist_inserts_l.
Qed.

Lemma Inv_conservation N s evs :
  Inv N s evs → Inv2 s evs →
  length (enqueued evs)
  = (length (ran evs) + cnt running (m_workers s) + length (m_queue s)
     + length (discarded evs))%nat
  ∧ length (ran evs)
    = (length (completions evs) + cnt just_ran (m_workers s))%nat.
Proof.
  intros HI HJ. split; [|exact (i2_compl _ _ HJ)].
  pose proof (f_equal length (inv_queue _ _ _ HI)) as Hq.
  rewrite length_app, removed_length in Hq.
  pose proof (i2_ran _ _ HJ). lia.
Qed.

(** X1.  In every reachable state the tasks accepted so far are, as a
    multiset, the tasks already called by a worker, the tasks held by a
    worker that is about to call them, the tasks still queued and the
    tasks discarded by [Stop(CancelPending)]: no task is lost, none is
    called twice and no other task is called.  The tasks taken off the
    queue are those called or held.  [m_completed] is the number of
    counting steps modulo 2^64, and every task that was called has been
    counted or its worker is just about to count it. *)
Theorem task_conservation tel hc cfg acts s evs :
  run tel acts (JobSystem_ctor hc cfg) = Some (s, evs) →
  enqueued evs ≡ₚ ran evs ++ held (m_workers s) ++ m_queue s ++ discarded evs
  ∧ dequeued evs ≡ₚ ran evs ++ held (m_workers s)
  ∧ m_completed s = Z.of_nat (length (completions evs)) mod 2 ^ 64
  ∧ length (enqueued evs)
    = (length (ran evs) + cnt running (m_workers s) + length (m_queue s)
       + length (discarded evs))%nat
  ∧ length (ran evs)
    = (length (completions evs) + cnt just_ran (m_workers s))%nat.
Proof.
  intros Hrun. pose proof (run_items _ _ _ _ _ _ Hrun) as [Hd He].
  pose proof (run_Inv _ _ _ _ _ _ Hrun) as HI.
  split; [done|]. split; [done|]. split; [exact (inv_completed _ _ _ HI)|].
  eapply Inv_conservation; [done|by eapply run_Inv2].
Qed.

Lemma task_conservation_witness :
  enqueued (history false mixed_acts (JobSystem_ctor 1 cfg1))
  ≡ₚ ran (history false mixed_acts (JobSystem_ctor 1 cfg1))
     ++ held (m_workers (final false mixed_acts (JobSystem_ctor 1 cfg1)))
     ++ m_queue (final false mixed_acts (JobSystem_ctor 1 cfg1))
     ++ discarded (history false mixed_acts (JobSystem_ctor 1 cfg1))
  ∧ dequeued (history false mixed_acts (JobSystem_ctor 1 cfg1))
    ≡ₚ ran (history false mixed_acts (JobSystem_ctor 1 cfg1))
       ++ held (m_workers (final false mixed_acts (JobSystem_ctor 1 cfg1)))
  ∧ m_completed (final false mixed_acts (JobSystem_ctor 1 cfg1))
    = Z.of_nat
        (length (completions (history false mixed_acts (JobSystem_ctor 1 cfg1))))
      mod 2 ^ 64
  ∧ length (enqueued (history false mixed_acts (JobSystem_ctor 1 cfg1)))
    = (length (ran (history false mixed_acts (JobSystem_ctor 1 cfg1)))
       + cnt running (m_workers (final false mixed_acts (JobSystem_ctor 1 cfg1)))
       + length (m_queue (final false mixed_acts (JobSystem_ctor 1 cfg1)))
       + length (discarded (history false mixed_acts (JobSystem_ctor 1 cfg1))))%nat
  ∧ length (ran (history false mixed_acts (JobSystem_ctor 1 cfg1)))
    = (length (completions (history false mixed_acts (JobSystem_ctor 1 cfg1)))
       + cnt just_ran
           (m_workers (final false mixed_acts (JobSystem_ctor 1 cfg1))))%nat.
Proof.
  refine (task_conservation false 1 cfg1 mixed_acts _ _ _).
  vm_compute. reflexivity.
Defined.

(** X2.  Workers take tasks in the order in which they were accepted: the
    sequence of tasks taken off the queue is a subsequence of the sequence
    of tasks pushed, and as long as nothing was discarded the tasks pushed
    are exactly the tasks taken followed by the tasks still queued. *)
Theorem tasks_start_in_order tel hc cfg acts s evs :
  run tel acts (JobSystem_ctor hc cfg) = Some (s, evs) →
  dequeued evs `sublist_of` enqueued evs
  ∧ (discarded evs = [] → enqueued evs = dequeued evs ++ m_queue s).
Proof.
  intros Hrun. pose proof (run_Inv _ _ _ _ _ _ Hrun) as HI.
  pose proof (inv_queue _ _ _ HI) as Hq. split.
  - rewrite Hq. etrans; [apply dequeued_sublist_removed|].
    by apply sublist_inserts_r.
  - intros Hd. by rewrite Hq, (removed_no_discard _ Hd).
Qed.

Lemma tasks_start_in_order_witness :
  dequeued (history false (queued_acts ++ [AWorker 0 Returned]) (JobSystem_ctor 1 cfg1))
  `sublist_of`
  enqueued (history false (queued_acts ++ [AWorker 0 Returned]) (JobSystem_ctor 1 cfg1))
  ∧ (discarded (history false (queued_acts ++ [AWorker 0 Returned]) (JobSystem_ctor 1 cfg1))
     = [] →
     enqueued (history false (queued_acts ++ [AWorker 0 Returned]) (JobSystem_ctor 1 cfg1))
     = dequeued (history false (queued_acts ++ [AWorker 0 Returned]) (JobSystem_ctor 1 cfg1))
       ++ m_queue (final false (queued_acts ++ [AWorker 0 Returned]) (JobSystem_ctor 1 cfg1))).
Proof.
  refine (tasks_start_in_order false 1 cfg1 (queued_acts ++ [AWorker 0 Returned]) _ _ _).
  vm_compute. reflexivity.
Defined.

(** X3.  [m_submitted] is the number of submissions that returned true,
    and [m_completed] the number of tasks called (whether they returned or
    threw) less those whose worker has not yet reached the increment at
    l.237; both modulo 2^64. *)
Theorem counters_count tel hc cfg acts s evs :
  run tel acts (JobSystem_ctor hc cfg) = Some (s, evs) →
  m_submitted s = wrap64 (Z.of_nat (length (accepted_returns evs)))
  ∧ m_completed s
    = wrap64 (Z.of_nat (length (ran evs)) - Z.of_nat (cnt just_ran (m_workers s))).
Proof.
  intros Hrun. pose proof (run_Inv _ _ _ _ _ _ Hrun) as HI.
  pose proof (run_Inv2 _ _ _ _ _ _ Hrun) as HJ.
  rewrite (inv_submitted _ _ _ HI), (inv_completed _ _ _ HI),
    (i2_accepted _ _ HJ), (i2_compl _ _ HJ).
  split; [done|]. f_equal. lia.
Qed.

Lemma counters_count_witness :
  m_submitted (final false done_acts (JobSystem_ctor 1 cfg1))
  = wrap64
      (Z.of_nat
         (length (accepted_returns (history false done_acts (JobSystem_ctor 1 cfg1)))))
  ∧ m_completed (final false done_acts (JobSystem_ctor 1 cfg1))
    = wrap64
        (Z.of_nat (length (ran (history false done_acts (JobSystem_ctor 1 cfg1))))
         - Z.of_nat
             (cnt just_ran (m_workers (final false done_acts (JobSystem_ctor 1 cfg1))))).
Proof.
  refine (counters_count false 1 cfg1 done_acts _ _ _).
  vm_compute. reflexivity.
Defined.

(** X4.  [m_inFlight] is exactly the number of workers between the
    increment at l.206 and the decrement at l.241; it lies between 0 and
    the number of workers, so neither [fetch_add] nor [fetch_sub] on it
    ever wraps. *)
Theorem inFlight_bounds tel hc cfg acts s evs :
  run tel acts (JobSystem_ctor hc cfg) = Some (s, evs) →
  m_inFlight s = Z.of_nat (cnt inhand (m_workers s))
  ∧ 0 ≤ m_inFlight s ≤ Z.of_nat (length (m_workers s))
  ∧ Z.of_nat (length (m_workers s)) < 2 ^ 32.
Proof.
  intros Hrun. pose proof (run_Inv _ _ _ _ _ _ Hrun) as HI.
  pose proof (inv_inFlight _ _ _ HI) as Hin.
  pose proof (cnt_le_length inhand (m_workers s)).
  pose proof (inv_workers _ _ _ HI) as Hws.
  pose proof (inv_N _ _ _ HI).
  split; [done|]. split; [lia|].
  destruct (stop_performed evs); lia.
Qed.

Lemma inFlight_bounds_witness :
  m_inFlight (final false taken_acts (JobSystem_ctor 1 cfg1))
  = Z.of_nat (cnt inhand (m_workers (final false taken_acts (JobSystem_ctor 1 cfg1))))
  ∧ 0 ≤ m_inFlight (final false taken_acts (JobSystem_ctor 1 cfg1))
      ≤ Z.of_nat (length (m_workers (final false taken_acts (JobSystem_ctor 1 cfg1))))
  ∧ Z.of_nat (length (m_workers (final false taken_acts (JobSystem_ctor 1 cfg1))))
    < 2 ^ 32.
Proof.
  refine (inFlight_bounds false 1 cfg1 taken_acts _ _ _).
  vm_compute. reflexivity.
Defined.

Lemma stop_performed_returned evs :
  stop_performed evs = true → stop_returned evs = true.
Proof.
  induction evs as [|e r IH]; simpl; [done|].
  destruct e; simpl; done.
Qed.

(** X5.  As long as the scheduler accepts submissions it has all the
    workers it was built with, none of them has been asked to stop, and
    none has left its loop: tasks, throwing or not, never cost a worker. *)
Theorem workers_alive_while_accepting tel hc cfg acts s evs :
  run tel acts (JobSystem_ctor hc cfg) = Some (s, evs) →
  m_accepting s = true →
  length (m_workers s) = worker_total hc cfg
  ∧ ∀ i w, m_workers s !! i = Some w →
           w_stop w = false ∧ left_loop (w_pc w) = false.
Proof.
  intros Hrun Hacc. pose proof (run_Inv _ _ _ _ _ _ Hrun) as HI.
  pose proof (run_Inv2 _ _ _ _ _ _ Hrun) as HJ.
  split.
  - rewrite (inv_workers _ _ _ HI).
    destruct (stop_performed evs) eqn:Hsp; [|done].
    apply stop_performed_returned in Hsp.
    destruct (inv_accepting _ _ _ HI Hacc). congruence.
  - intros i w Hw.
    assert (w_stop w = false) as Hst.
    { destruct (w_stop w) eqn:Hst; [|done].
      pose proof (i2_stopflag _ _ HJ _ _ Hw Hst). congruence. }
    split; [done|].
    destruct (left_loop (w_pc w)) eqn:Hl; [|done].
    destruct (i2_left _ _ HJ _ _ Hw Hl). congruence.
Qed.

Lemma workers_alive_while_accepting_witness :
  length (m_workers (final false done_acts (JobSystem_ctor 1 cfg1)))
  = worker_total 1 cfg1
  ∧ ∀ i w,
      m_workers (final false done_acts (JobSystem_ctor 1 cfg1)) !! i = Some w →
      w_stop w = false ∧ left_loop (w_pc w) = false.
Proof.
  refine (workers_alive_while_accepting false 1 cfg1 done_acts _ _ _ _).
  - vm_compute. reflexivity.
  - vm_compute. reflexivity.
Defined.

(** X6.  No empty callable ever reaches a worker: every task in the queue
    and every task a worker is about to call carries a non-empty
    [std::function]. *)
Theorem callables_never_empty tel hc cfg acts s evs :
  run tel acts (JobSystem_ctor hc cfg) = Some (s, evs) →
  (∀ x, x ∈ m_queue s → item_fn x ≠ None)
  ∧ (∀ i w task,
       m_workers s !! i = Some w → w_pc w = WRun task → item_fn task ≠ None).
Proof.
  intros Hrun. pose proof (run_Inv2 _ _ _ _ _ _ Hrun) as HJ.
  split; [exact (i2_queue_fn _ _ HJ)|exact (i2_held_fn _ _ HJ)].
Qed.

Lemma callables_never_empty_witness :
  (∀ x, x ∈ m_queue (final false cancel_acts (JobSystem_ctor 1 cfg1)) →
        item_fn x ≠ None)
  ∧ (∀ i w task,
       m_workers (final false cancel_acts (JobSystem_ctor 1 cfg1)) !! i = Some w →
       w_pc w = WRun task → item_fn task ≠ None).
Proof.
  refine (callables_never_empty false 1 cfg1 cancel_acts _ _ _).
  vm_compute. reflexivity.
Defined.

(** ** Shutdown, continued *)

Lemma Stop_terminal_state_shut tel hc cfg acts s evs :
  run tel acts (JobSystem_ctor hc cfg) = Some (s, evs) →
  stop_performed evs = true → shut_down s.
Proof.
  intros Hrun Hsp. pose proof (run_Inv _ _ _ _ _ _ Hrun) as HI.
  pose proof (run_Inv2 _ _ _ _ _ _ Hrun) as HJ.
  destruct (i2_performed _ _ HJ Hsp) as (Hq & Hacc & Hno).
  pose proof (inv_workers _ _ _ HI) as Hws. rewrite Hsp in Hws.
  split; [by destruct (m_workers s)|done].
Qed.

(** X7.  When the [Stop] that performs the shutdown has returned, the
    queue is empty, nothing is in flight, the workers are gone, the flag
    is cleared and no thread is inside the shutdown.  The tasks accepted
    are, as a multiset, the tasks that were called and the tasks that were
    discarded, and the tasks called are the tasks taken off the queue.
    Every task called has been counted: [m_completed] is the number of
    tasks called and [m_submitted] is [m_completed] plus the number of
    tasks discarded, both modulo 2^64. *)
Theorem Stop_terminal_state tel hc cfg acts s evs :
  run tel acts (JobSystem_ctor hc cfg) = Some (s, evs) →
  stop_performed evs = true →
  shut_down s
  ∧ m_inFlight s = 0
  ∧ enqueued evs ≡ₚ ran evs ++ discarded evs
  ∧ dequeued evs ≡ₚ ran evs
  ∧ m_completed s = Z.of_nat (length (ran evs)) mod 2 ^ 64
  ∧ m_submitted s
    = (m_completed s + Z.of_nat (length (discarded evs))) mod 2 ^ 64
  ∧ length (enqueued evs) = (length (ran evs) + length (discarded evs))%nat
  ∧ length (completions evs) = length (ran evs).
Proof.
  intros Hrun Hsp. pose proof (run_Inv _ _ _ _ _ _ Hrun) as HI.
  pose proof (Stop_terminal_state_shut _ _ _ _ _ _ Hrun Hsp) as Hsd.
  pose proof (run_items _ _ _ _ _ _ Hrun) as [Hd He].
  destruct Hsd as (Hnil & Hacc & Hq & Hno).
  pose proof (inv_inFlight _ _ _ HI) as Hin. rewrite Hnil in Hin. simpl in Hin.
  rewrite Hnil, Hq in He. rewrite Hnil in Hd. simpl in He, Hd.
  rewrite app_nil_r in Hd.
  assert (no_mid_transition s) as Hmid.
  { intros i w Hw. by rewrite Hnil in Hw. }
  destruct (Inv_conservation _ _ _ HI (run_Inv2 _ _ _ _ _ _ Hrun)) as [H1 H2].
  rewrite Hnil, Hq in H1. rewrite Hnil in H2. simpl in H1, H2.
  split; [done|]. split; [done|]. split; [done|]. split; [done|].
  split; [rewrite (inv_completed _ _ _ HI); unfold wrap64; f_equal; lia|].
  split; [|lia].
  rewrite (Inv_equation _ _ _ HI Hmid), Hin, Hq. unfold wrap64. simpl.
  f_equal. lia.
Qed.

Lemma Stop_terminal_state_witness :
  shut_down (final false cancel_full_acts (JobSystem_ctor 1 cfg1))
  ∧ m_inFlight (final false cancel_full_acts (JobSystem_ctor 1 cfg1)) = 0
  ∧ enqueued (history false cancel_full_acts (JobSystem_ctor 1 cfg1))
    ≡ₚ ran (history false cancel_full_acts (JobSystem_ctor 1 cfg1))
       ++ discarded (history false cancel_full_acts (JobSystem_ctor 1 cfg1))
  ∧ dequeued (history false cancel_full_acts (JobSystem_ctor 1 cfg1))
    ≡ₚ ran (history false cancel_full_acts (JobSystem_ctor 1 cfg1))
  ∧ m_completed (final false cancel_full_acts (JobSystem_ctor 1 cfg1))
    = Z.of_nat (length (ran (history false cancel_full_acts (JobSystem_ctor 1 cfg1))))
      mod 2 ^ 64
  ∧ m_submitted (final false cancel_full_acts (JobSystem_ctor 1 cfg1))
    = (m_completed (final false cancel_full_acts (JobSystem_ctor 1 cfg1))
       + Z.of_nat
           (length (discarded (history false cancel_full_acts (JobSystem_ctor 1 cfg1)))))
      mod 2 ^ 64
  ∧ length (enqueued (history false cancel_full_acts (JobSystem_ctor 1 cfg1)))
    = (length (ran (history false cancel_full_acts (JobSystem_ctor 1 cfg1)))
       + length (discarded (history false cancel_full_acts (JobSystem_ctor 1 cfg1))))%nat
  ∧ length (completions (history false cancel_full_acts (JobSystem_ctor 1 cfg1)))
    = length (ran (history false cancel_full_acts (JobSystem_ctor 1 cfg1))).
Proof.
  refine (Stop_terminal_state false 1 cfg1 cancel_full_acts _ _ _ _).
  - vm_compute. reflexivity.
  - vm_compute. reflexivity.
Defined.

Lemma step_no_cancel tel a s s' e :
  step tel a s = Some (s', e) →
  is_cancel_call a = false → no_cancel_pending s →
  no_cancel_pending s' ∧ discarded e = [].
Proof.
  unfold no_cancel_pending. intros Hs Ha Hno.
  destruct a as [t c|t|i o]; simpl in Hs.
  - destruct (callers s !! t) eqn:Hc; [done|].
    destruct c as [| | |[]| |]; try done; op_cases Hs;
      (split; [intros t0 Hl; map_field; by eapply Hno|done]).
  - destruct (callers s !! t) as [pc|] eqn:Hc; [|done].
    destruct pc; op_cases Hs;
      try (split; [intros t0 Hl; map_field; by eapply Hno|done]).
    by apply Hno in Hc.
  - destruct (m_workers s !! i) as [w|]; [|done].
    unfold worker_step in Hs. destruct (w_pc w); op_cases Hs; done.
Qed.

Lemma no_cancel_calls_app a b :
  no_cancel_calls (a ++ b) = no_cancel_calls a && no_cancel_calls b.
Proof. apply forallb_app. Qed.

Lemma Exec_no_cancel tel s0 acts s evs :
  Exec tel s0 acts s evs →
  no_cancel_calls acts = true → no_cancel_pending s0 →
  no_cancel_pending s ∧ discarded evs = [].
Proof.
  induction 1 as [|acts s evs a s' e _ IH Hs]; [done|].
  rewrite no_cancel_calls_app. intros [H1 H2]%andb_prop Hno.
  simpl in H2. rewrite andb_true_r in H2. apply negb_true_iff in H2.
  destruct (IH H1 Hno) as [Hno' Hd].
  destruct (step_no_cancel _ _ _ _ _ Hs H2 Hno') as [? He].
  split; [done|]. by rewrite discarded_app, Hd, He.
Qed.

(** X8.  [Stop(Drain)] finishes all queued work.  In an execution in which
    [Stop] is never called with [CancelPending] (the destructor calls it
    with [Drain]) no task is ever discarded, and once the shutdown has
    been performed every accepted task has been taken off the queue, in
    the order of acceptance, called and counted: the tasks called are, as
    a multiset, the tasks accepted, and [m_completed] is their number
    modulo 2^64, equal to [m_submitted]. *)
Theorem Drain_completes_all tel hc cfg acts s evs :
  run tel acts (JobSystem_ctor hc cfg) = Some (s, evs) →
  no_cancel_calls acts = true →
  discarded evs = []
  ∧ (stop_performed evs = true →
     ran evs ≡ₚ enqueued evs
     ∧ dequeued evs = enqueued evs
     ∧ m_completed s = Z.of_nat (length (enqueued evs)) mod 2 ^ 64
     ∧ m_completed s = m_submitted s
     ∧ length (completions evs) = length (enqueued evs)).
Proof.
  intros Hrun Hnc. pose proof (run_Exec _ _ _ _ _ Hrun) as HE.
  pose proof (Exec_Inv _ _ _ _ _ _ HE) as HI.
  pose proof (Exec_Inv2 _ _ _ _ _ _ HE) as HJ.
  destruct (Exec_no_cancel _ _ _ _ _ HE Hnc) as [_ Hd].
  { intros t Hl. simpl in Hl. by rewrite lookup_empty in Hl. }
  split; [done|]. intros Hsp.
  destruct (i2_performed _ _ HJ Hsp) as (Hq & _ & _).
  pose proof (inv_workers _ _ _ HI) as Hws. rewrite Hsp in Hws.
  assert (m_workers s = []) as Hnil by (by destruct (m_workers s)).
  pose proof (Inv_accounting _ _ _ HI) as Hacc.
  rewrite Hnil, Hq, Hd in Hacc. simpl in Hacc.
  pose proof (run_items _ _ _ _ _ _ Hrun) as [_ He].
  rewrite Hnil, Hq, Hd in He. simpl in He. rewrite app_nil_r in He.
  pose proof (inv_queue _ _ _ HI) as Hrm.
  rewrite (removed_no_discard _ Hd), Hq, app_nil_r in Hrm.
  split; [done|]. split; [done|].
  rewrite (inv_submitted _ _ _ HI), (inv_completed _ _ _ HI). unfold wrap64.
  split; [f_equal; lia|]. split; [f_equal|]; lia.
Qed.

Lemma Drain_completes_all_witness :
  stop_performed (history false drain_full_acts (JobSystem_ctor 1 cfg1)) = true
  ∧ discarded (history false drain_full_acts (JobSystem_ctor 1 cfg1)) = []
  ∧ ran (history false drain_full_acts (JobSystem_ctor 1 cfg1))
    ≡ₚ enqueued (history false drain_full_acts (JobSystem_ctor 1 cfg1))
  ∧ dequeued (history false drain_full_acts (JobSystem_ctor 1 cfg1))
    = enqueued (history false drain_full_acts (JobSystem_ctor 1 cfg1))
  ∧ m_completed (final false drain_full_acts (JobSystem_ctor 1 cfg1))
    = Z.of_nat
        (length (enqueued (history false drain_full_acts (JobSystem_ctor 1 cfg1))))
      mod 2 ^ 64
  ∧ m_completed (final false drain_full_acts (JobSystem_ctor 1 cfg1))
    = m_submitted (final false drain_full_acts (JobSystem_ctor 1 cfg1))
  ∧ length (completions (history false drain_full_acts (JobSystem_ctor 1 cfg1)))
    = length (enqueued (history false drain_full_acts (JobSystem_ctor 1 cfg1))).
Proof.
  split; [vm_compute; reflexivity|].
  refine (match Drain_completes_all false 1 cfg1 drain_full_acts _ _ _ _ with
          | conj Hd Hp => conj Hd (Hp _)
          end).
  - vm_compute. reflexivity.
  - vm_compute. reflexivity.
  - vm_compute. reflexivity.
Defined.

(** X11.  However many threads call [Stop], at most one of the calls
    performs the shutdown and the queue is cleared at most once. *)
Theorem Stop_performed_once tel hc cfg acts s evs :
  run tel acts (JobSystem_ctor hc cfg) = Some (s, evs) →
  (length (performed_returns evs) ≤ 1)%nat
  ∧ (length (discards evs) ≤ 1)%nat.
Proof.
  intros Hrun. pose proof (run_Inv2 _ _ _ _ _ _ Hrun) as HJ.
  split; [|exact (i2_discards _ _ HJ)].
  rewrite (i2_performer _ _ HJ). destruct (stop_performed evs); lia.
Qed.

Lemma Stop_performed_once_witness :
  (length
     (performed_returns
        (history false (stop_acts ++ [ACall 2 (CStop CancelPending)])
           (JobSystem_ctor 1 cfg1))) ≤ 1)%nat
  ∧ (length
       (discards
          (history false (stop_acts ++ [ACall 2 (CStop CancelPending)])
             (JobSystem_ctor 1 cfg1))) ≤ 1)%nat.
Proof.
  refine (Stop_performed_once false 1 cfg1
            (stop_acts ++ [ACall 2 (CStop CancelPending)]) _ _ _).
  vm_compute. reflexivity.
Defined.

Lemma cnt_pos P (ws : list Worker) i w :
  ws !! i = Some w → P (w_pc w) = true → (1 ≤ cnt P ws)%nat.
Proof.
  revert i. induction ws as [|x r IH]; intros [|i] Hw HP; simplify_eq/=.
  - rewrite HP. lia.
  - specialize (IH _ Hw HP). lia.
Qed.

Lemma forallb_exited_lookup (ws : list Worker) i w :
  forallb exited ws = true → ws !! i = Some w → w_pc w = WExited.
Proof.
  revert i. induction ws as [|x r IH]; intros [|i] Hall Hw; simplify_eq/=;
    apply andb_prop in Hall as [Hx Hr].
  - unfold exited in Hx. by destruct (w_pc w).
  - by eapply IH.
Qed.

Lemma keep_pc (ws : list Worker) i w k w' :
  ws !! i = Some w → (k = i → w_pc w' = w_pc w) →
  ∃ w2, <[k := w']> ws !! i = Some w2 ∧ w_pc w2 = w_pc w.
Proof.
  intros Hw Hk. destruct (decide (k = i)) as [->|Hne].
  - exists w'. split; [|by apply Hk].
    apply list_lookup_insert_eq. by eapply lookup_lt_Some.
  - exists w. by rewrite list_lookup_insert_ne.
Qed.

(** The predicates of the waits are false while [m_inFlight] is not 0. *)
Ltac wait_closed Hz :=
  match goal with
  | H : WaitIdle_pred _ = true |- _ =>
      unfold WaitIdle_pred in H; rewrite Hz, andb_false_r in H; done
  | H : (m_inFlight _ =? 0) = true |- _ => by rewrite Hz in H
  end.

(** While worker [i] holds a task and does not move, no step of anybody
    else lets [WaitIdle] return or completes a shutdown, and worker [i]
    stays where it is. *)
Lemma step_blocked tel N a s evs i w s' e :
  Inv N s evs →
  m_workers s !! i = Some w → inhand (w_pc w) = true →
  worker_silent i [a] = true →
  step tel a s = Some (s', e) →
  (∃ w2, m_workers s' !! i = Some w2 ∧ w_pc w2 = w_pc w)
  ∧ waitidle_returns e = [] ∧ stop_performed e = false.
Proof.
  intros HI Hw Hin Hsil Hs.
  pose proof (inv_inFlight _ _ _ HI) as Hfl.
  pose proof (cnt_pos inhand _ _ _ Hw Hin) as Hpos.
  assert ((m_inFlight s =? 0) = false) as Hz by (apply Z.eqb_neq; lia).
  destruct a as [t c|t|j o]; simpl in Hs.
  - destruct (callers s !! t); [done|].
    destruct c; op_cases Hs; try (split; [by exists w|done]).
    wait_closed Hz.
  - destruct (callers s !! t) as [pc|]; [|done].
    destruct pc; op_cases Hs; try (split; [by exists w|done]).
    all: first
      [ wait_closed Hz
      | match goal with H : forallb exited _ = true |- _ =>
          pose proof (forallb_exited_lookup _ _ _ H Hw) as Hpc;
          by rewrite Hpc in Hin
        end
      | split; [|done]; eapply keep_pc; [done|]; intros ->; by simplify_eq ].
  - simpl in Hsil. rewrite andb_true_r in Hsil.
    apply negb_true_iff, Nat.eqb_neq in Hsil.
    destruct (m_workers s !! j) as [wj|] eqn:Hwj; [|done].
    unfold worker_step in Hs.
    destruct (w_pc wj) eqn:Hpc; op_cases Hs;
      try (split; [by exists w|done]);
      (split; [|done]; eapply keep_pc; [done|]; by intros ->).
Qed.

Lemma run_blocked tel N acts2 : ∀ s evs i w s2 e2,
  Inv N s evs →
  m_workers s !! i = Some w → inhand (w_pc w) = true →
  worker_silent i acts2 = true →
  run tel acts2 s = Some (s2, e2) →
  (∃ w2, m_workers s2 !! i = Some w2 ∧ w_pc w2 = w_pc w)
  ∧ waitidle_returns e2 = [] ∧ stop_performed e2 = false
  ∧ Inv N s2 (evs ++ e2).
Proof.
  induction acts2 as [|a acts2 IH]; intros s evs i w s2 e2 HI Hw Hin Hsil Hrun.
  - simpl in Hrun. simplify_eq. rewrite app_nil_r. split; [by exists w|done].
  - simpl in Hrun. destruct (step tel a s) as [[s1 e1]|] eqn:Hs; [|done].
    destruct (run tel acts2 s1) as [[s3 e3]|] eqn:Hr; [|done]. simplify_eq.
    change (a :: acts2) with ([a] ++ acts2) in Hsil.
    unfold worker_silent in Hsil. rewrite forallb_app in Hsil.
    apply andb_prop in Hsil as [Ha Hrest].
    destruct (step_blocked _ _ _ _ _ _ _ _ _ HI Hw Hin Ha Hs)
      as ((w1 & Hw1 & Hpc1) & Hwi1 & Hsp1).
    pose proof (step_Inv _ _ _ _ _ _ _ HI Hs) as HI1.
    assert (inhand (w_pc w1) = true) as Hin1 by (by rewrite Hpc1).
    destruct (IH _ _ _ _ _ _ HI1 Hw1 Hin1 Hrest Hr)
      as ((w2 & Hw2 & Hpc2) & Hwi2 & Hsp2 & HI2).
    split; [exists w2; split; [done|congruence]|].
    unfold waitidle_returns in *. rewrite flat_map_app, Hwi1, Hwi2.
    unfold stop_performed in *. rewrite existsb_app, Hsp1, Hsp2.
    rewrite <- app_assoc in HI2. done.
Qed.

(** X12.  Suppose a worker holds a task, anywhere from taking it off the
    queue to its decrement of [m_inFlight].  As long as that worker takes
    no step, whatever the other threads and workers do, the worker stays
    at the same point, no [WaitIdle] returns and no [Stop] that performs
    the shutdown returns; in the state reached a call of [WaitIdle] and a
    thread at the wait inside [Stop] still cannot proceed.  A worker
    whose task is itself waiting for such a call to return takes no step:
    the call never returns. *)
Theorem waits_block_while_task_runs tel hc cfg acts s evs i w acts2 s2 e2 :
  run tel acts (JobSystem_ctor hc cfg) = Some (s, evs) →
  m_workers s !! i = Some w →
  inhand (w_pc w) = true →
  worker_silent i acts2 = true →
  run tel acts2 s = Some (s2, e2) →
  (∃ w2, m_workers s2 !! i = Some w2 ∧ w_pc w2 = w_pc w)
  ∧ waitidle_returns e2 = []
  ∧ stop_performed e2 = false
  ∧ (∀ t, step tel (ACall t CWaitIdle) s2 = None)
  ∧ (∀ t mode, callers s2 !! t = Some (PStopWait mode) →
               step tel (AResume t) s2 = None).
Proof.
  intros Hrun Hw Hin Hsil Hrun2. pose proof (run_Inv _ _ _ _ _ _ Hrun) as HI.
  destruct (run_blocked _ _ _ _ _ _ _ _ _ HI Hw Hin Hsil Hrun2)
    as ((w2 & Hw2 & Hpc2) & Hwi & Hsp & HI2).
  pose proof (inv_inFlight _ _ _ HI2) as Hfl.
  assert (inhand (w_pc w2) = true) as Hin2 by (by rewrite Hpc2).
  pose proof (cnt_pos inhand _ _ _ Hw2 Hin2) as Hpos.
  assert ((m_inFlight s2 =? 0) = false) as Hz by (apply Z.eqb_neq; lia).
  split; [by exists w2|]. split; [done|]. split; [done|]. split_and!.
  - intros t. simpl. destruct (callers s2 !! t); [done|]. simpl.
    unfold WaitIdle, WaitIdle_pred. by rewrite Hz, andb_false_r.
  - intros t mode Hc. simpl. rewrite Hc. simpl. unfold Stop_wait, WaitIdle_pred.
    rewrite Hz, andb_false_r. by destruct mode.
Qed.

Lemma waits_block_while_task_runs_witness :
  (∃ w2,
     m_workers
       (final false stop_blocked_acts (final false taken_acts (JobSystem_ctor 1 cfg1)))
     !! 0%nat = Some w2
     ∧ w_pc w2 = WRun {| item_fn := Some 7%nat; item_id := 0; item_label := None |})
  ∧ waitidle_returns
      (history false stop_blocked_acts (final false taken_acts (JobSystem_ctor 1 cfg1)))
    = []
  ∧ stop_performed
      (history false stop_blocked_acts (final false taken_acts (JobSystem_ctor 1 cfg1)))
    = false
  ∧ (∀ t,
       step false (ACall t CWaitIdle)
         (final false stop_blocked_acts (final false taken_acts (JobSystem_ctor 1 cfg1)))
       = None)
  ∧ (∀ t mode,
       callers
         (final false stop_blocked_acts (final false taken_acts (JobSystem_ctor 1 cfg1)))
       !! t = Some (PStopWait mode) →
       step false (AResume t)
         (final false stop_blocked_acts (final false taken_acts (JobSystem_ctor 1 cfg1)))
       = None).
Proof.
  refine (waits_block_while_task_runs false 1 cfg1 taken_acts _ _ 0%nat
            {| w_pc := WRun {| item_fn := Some 7%nat; item_id := 0; item_label := None |};
               w_stop := false |} stop_blocked_acts _ _ _ _ _ _ _).
  - vm_compute. reflexivity.
  - vm_compute. reflexivity.
  - reflexivity.
  - reflexivity.
  - vm_compute. reflexivity.
Defined.

(** ** After the flag is cleared *)

(** Tasks leave the hands of workers only by being called, and enter them
    only by being taken off the queue. *)
Lemma step_running_balance tel a s s' e :
  step tel a s = Some (s', e) →
  (cnt running (m_workers s') + length (ran e)
   = cnt running (m_workers s) + length (dequeued e))%nat.
Proof.
  intros Hs. destruct a as [t c|t|i o]; simpl in Hs.
  - destruct (callers s !! t); [done|]. destruct c; op_cases Hs; lia.
  - destruct (callers s !! t) as [pc|]; [|done].
    destruct pc; op_cases Hs; try lia.
    + match goal with H : m_workers _ !! _ = Some _ |- _ =>
        pose proof (cnt_insert running _ _ _ (w_pc w) true H) end. lia.
    + rewrite cnt_exited; [lia|done..].
  - destruct (m_workers s !! i) as [w|] eqn:Hw; [|done].
    unfold worker_step in Hs.
    destruct (w_pc w) eqn:Hpc; op_cases Hs; try lia.
    all: match goal with |- context [cnt ?P (<[_ := {| w_pc := ?pc; w_stop := ?st |}]> _)] =>
      let K := fresh in
      pose proof (cnt_insert P _ _ _ pc st Hw) as K; rewrite Hpc in K; simpl in K; lia end.
Qed.

(** With the flag cleared and the queue empty, nothing is pushed or taken
    any more. *)
Lemma step_closed_queue tel a s s' e :
  step tel a s = Some (s', e) →
  m_accepting s = false → m_queue s = [] →
  m_accepting s' = false ∧ m_queue s' = []
  ∧ enqueued e = [] ∧ dequeued e = [] ∧ accepted_returns e = [].
Proof.
  intros Hs Hf Hq. destruct a as [t c|t|i o]; simpl in Hs.
  - destruct (callers s !! t); [done|].
    destruct c; op_cases Hs; bool_norm; try done; congruence.
  - destruct (callers s !! t) as [pc|]; [|done].
    destruct pc; op_cases Hs; bool_norm; try done; congruence.
  - destruct (m_workers s !! i) as [w|]; [|done].
    unfold worker_step in Hs.
    destruct (w_pc w); op_cases Hs; bool_norm; try done; congruence.
Qed.

Lemma run_closed_queue tel acts s s' e :
  run tel acts s = Some (s', e) →
  m_accepting s = false → m_queue s = [] →
  m_accepting s' = false ∧ m_queue s' = []
  ∧ enqueued e = [] ∧ dequeued e = [] ∧ accepted_returns e = []
  ∧ (cnt running (m_workers s') + length (ran e) = cnt running (m_workers s))%nat.
Proof.
  revert s s' e. induction acts as [|a acts IH]; intros s s' e Hrun Hf Hq.
  - simpl in Hrun. simplify_eq. simpl. split_and!; done.
  - simpl in Hrun. destruct (step tel a s) as [[s1 e1]|] eqn:Hs; [|done].
    destruct (run tel acts s1) as [[s2 e2]|] eqn:Hr; [|done]. simplify_eq.
    destruct (step_closed_queue _ _ _ _ _ Hs Hf Hq) as (Hf1 & Hq1 & He1 & Hd1 & Ha1).
    destruct (IH _ _ _ Hr Hf1 Hq1) as (Hf2 & Hq2 & He2 & Hd2 & Ha2 & Hb2).
    pose proof (step_running_balance _ _ _ _ _ Hs) as Hb1.
    rewrite enqueued_app, dequeued_app, accepted_returns_app, ran_app, length_app,
      He1, He2, Hd1, Hd2, Ha1, Ha2.
    rewrite Hd1 in Hb1. simpl in Hb1. split_and!; try done. lia.
Qed.

(** Once shut down, a step changes neither the queue nor a counter nor the
    (empty) set of workers. *)
Lemma step_shut_down tel a s s' e :
  step tel a s = Some (s', e) →
  shut_down s →
  shut_down s'
  ∧ m_submitted s' = m_submitted s ∧ m_completed s' = m_completed s
  ∧ m_inFlight s' = m_inFlight s
  ∧ ran e = [] ∧ completions e = [] ∧ discarded e = [].
Proof.
  unfold shut_down. intros Hs (Hws & Hf & Hq & Hno).
  destruct a as [t c|t|i o]; simpl in Hs.
  - destruct (callers s !! t) eqn:Hc; [done|].
    destruct c; op_cases Hs; bool_norm; try congruence.
    all: split_and!; try done; intros t0 pc0 Hl; map_field; eauto.
  - destruct (callers s !! t) as [pc|] eqn:Hc; [|done].
    pose proof (Hno _ _ Hc) as Hns.
    destruct pc; try done; op_cases Hs; bool_norm; try congruence.
    all: split_and!; try done; intros t0 pc0 Hl; map_field; eauto.
  - by rewrite Hws in Hs.
Qed.

(** X10.  After the [Stop] that performs the shutdown has returned the
    instance is inert: in every continuation the queue stays empty, there
    are no workers, the three counters keep their values, no submission is
    accepted and no task is called. *)
Theorem Stop_leaves_inert tel hc cfg acts s evs acts2 s2 e2 :
  run tel acts (JobSystem_ctor hc cfg) = Some (s, evs) →
  stop_performed evs = true →
  run tel acts2 s = Some (s2, e2) →
  shut_down s2
  ∧ m_submitted s2 = m_submitted s ∧ m_completed s2 = m_completed s
  ∧ m_inFlight s2 = m_inFlight s
  ∧ accepted_returns e2 = [] ∧ ran e2 = [] ∧ completions e2 = [].
Proof.
  intros Hrun Hsp Hr.
  pose proof (Stop_terminal_state_shut _ _ _ _ _ _ Hrun Hsp) as Hsd.
  clear Hrun Hsp. revert s s2 e2 Hr Hsd.
  induction acts2 as [|a acts2 IH]; intros s s2 e2 Hr Hsd.
  - simpl in Hr. by simplify_eq.
  - simpl in Hr. destruct (step tel a s) as [[s1 e1]|] eqn:Hs; [|done].
    destruct (run tel acts2 s1) as [[s3 e3]|] eqn:Hr1; [|done]. simplify_eq.
    destruct (step_shut_down _ _ _ _ _ Hs Hsd) as (Hsd1 & H1 & H2 & H3 & H4 & H5 & _).
    destruct Hsd as (_ & Hf & Hq & _).
    destruct (step_closed_queue _ _ _ _ _ Hs Hf Hq) as (_ & _ & _ & _ & Ha1).
    destruct (IH _ _ _ Hr1 Hsd1) as (? & ? & ? & ? & Ha & Hn & Hc).
    rewrite accepted_returns_app, ran_app, completions_app, Ha1, Ha, H4, Hn, H5, Hc.
    split_and!; try done; congruence.
Qed.

Lemma Stop_leaves_inert_witness :
  shut_down
    (final false [ACall 0 (CSubmit (Some 7%nat)); ACall 2 CGetStats]
       (final false stop_acts (JobSystem_ctor 1 cfg1)))
  ∧ m_submitted
      (final false [ACall 0 (CSubmit (Some 7%nat)); ACall 2 CGetStats]
         (final false stop_acts (JobSystem_ctor 1 cfg1)))
    = m_submitted (final false stop_acts (JobSystem_ctor 1 cfg1))
  ∧ m_completed
      (final false [ACall 0 (CSubmit (Some 7%nat)); ACall 2 CGetStats]
         (final false stop_acts (JobSystem_ctor 1 cfg1)))
    = m_completed (final false stop_acts (JobSystem_ctor 1 cfg1))
  ∧ m_inFlight
      (final false [ACall 0 (CSubmit (Some 7%nat)); ACall 2 CGetStats]
         (final false stop_acts (JobSystem_ctor 1 cfg1)))
    = m_inFlight (final false stop_acts (JobSystem_ctor 1 cfg1))
  ∧ accepted_returns
      (history false [ACall 0 (CSubmit (Some 7%nat)); ACall 2 CGetStats]
         (final false stop_acts (JobSystem_ctor 1 cfg1))) = []
  ∧ ran
      (history false [ACall 0 (CSubmit (Some 7%nat)); ACall 2 CGetStats]
         (final false stop_acts (JobSystem_ctor 1 cfg1))) = []
  ∧ completions
      (history false [ACall 0 (CSubmit (Some 7%nat)); ACall 2 CGetStats]
         (final false stop_acts (JobSystem_ctor 1 cfg1))) = [].
Proof.
  refine (Stop_leaves_inert false 1 cfg1 stop_acts _ _
            [ACall 0 (CSubmit (Some 7%nat)); ACall 2 CGetStats] _ _ _ _ _).
  - vm_compute. reflexivity.
  - vm_compute. reflexivity.
  - vm_compute. reflexivity.
Defined.

(** ** Idle states and statistics *)

(** In an idle state with no submission under way, a step that does not
    start a submission keeps the state idle and the counters fixed. *)
Lemma step_quiet tel N a s evs s' e :
  Inv N s evs → quiet s → is_submit_call a = false →
  step tel a s = Some (s', e) →
  quiet s'
  ∧ m_submitted s' = m_submitted s ∧ m_completed s' = m_completed s
  ∧ enqueued e = [] ∧ dequeued e = [] ∧ ran e = [] ∧ completions e = [].
Proof.
  unfold quiet. intros HI (Hq & Hz & Hns) Ha Hs.
  pose proof (inv_inFlight _ _ _ HI) as Hin.
  destruct a as [t c|t|i o]; simpl in Hs.
  - destruct (callers s !! t) eqn:Hc; [done|].
    destruct c; try done; op_cases Hs; bool_norm; try congruence.
    all: split_and!; try done; intros t0 pc0 Hl; map_field; eauto.
  - destruct (callers s !! t) as [pc|] eqn:Hc; [|done].
    pose proof (Hns _ _ Hc) as Hnp.
    destruct pc; try done; op_cases Hs; bool_norm; try congruence.
    all: split_and!; try done; intros t0 pc0 Hl; map_field; eauto.
  - destruct (m_workers s !! i) as [w|] eqn:Hw; [|done].
    unfold worker_step in Hs.
    destruct (w_pc w) eqn:Hpc;
      try (assert (inhand (w_pc w) = true) as Hih by (by rewrite Hpc);
           pose proof (cnt_pos inhand _ _ _ Hw Hih); lia).
    all: op_cases Hs; bool_norm; try congruence; done.
Qed.

Lemma no_submit_calls_cons a acts :
  no_submit_calls (a :: acts) = negb (is_submit_call a) && no_submit_calls acts.
Proof. reflexivity. Qed.

Lemma run_quiet tel N acts2 s evs s2 e2 :
  Inv N s evs → quiet s → no_submit_calls acts2 = true →
  run tel acts2 s = Some (s2, e2) →
  quiet s2
  ∧ m_submitted s2 = m_submitted s ∧ m_completed s2 = m_completed s
  ∧ enqueued e2 = [] ∧ dequeued e2 = [] ∧ ran e2 = [] ∧ completions e2 = [].
Proof.
  revert s evs s2 e2. induction acts2 as [|a acts2 IH];
    intros s evs s2 e2 HI Hqt Hns Hr.
  - simpl in Hr. by simplify_eq.
  - rewrite no_submit_calls_cons in Hns. apply andb_prop in Hns as [Ha Hns].
    apply negb_true_iff in Ha.
    simpl in Hr. destruct (step tel a s) as [[s1 e1]|] eqn:Hs; [|done].
    destruct (run tel acts2 s1) as [[s3 e3]|] eqn:Hr1; [|done]. simplify_eq.
    destruct (step_quiet _ _ _ _ _ _ _ HI Hqt Ha Hs)
      as (Hqt1 & H1 & H2 & H3 & H4 & H5 & H6).
    pose proof (step_Inv _ _ _ _ _ _ _ HI Hs) as HI1.
    destruct (IH _ _ _ _ HI1 Hqt1 Hns Hr1) as (? & ? & ? & G3 & G4 & G5 & G6).
    rewrite enqueued_app, dequeued_app, ran_app, completions_app,
      H3, H4, H5, H6, G3, G4, G5, G6.
    split_and!; try done; congruence.
Qed.

(** X13.  An idle instant lasts until somebody submits.  From a state in
    which the queue is empty, nothing is in flight and no submission is
    under way (the state in which [WaitIdle] returns, if no other thread
    is submitting), every continuation without a new call of [Submit] or
    [SubmitLabeled] leaves the queue empty, [m_inFlight] at 0 and
    [m_submitted] and [m_completed] unchanged, and calls no task. *)
Theorem idle_until_next_submission tel hc cfg acts s evs acts2 s2 e2 :
  run tel acts (JobSystem_ctor hc cfg) = Some (s, evs) →
  quiet s →
  no_submit_calls acts2 = true →
  run tel acts2 s = Some (s2, e2) →
  quiet s2
  ∧ m_submitted s2 = m_submitted s ∧ m_completed s2 = m_completed s
  ∧ enqueued e2 = [] ∧ dequeued e2 = [] ∧ ran e2 = [] ∧ completions e2 = [].
Proof.
  intros Hrun. eapply run_quiet, run_Inv, Hrun.
Qed.

Lemma callers_absent_quiet s :
  callers s = ∅ → m_queue s = [] → m_inFlight s = 0 → quiet s.
Proof.
  intros Hc Hq Hz. split_and!; try done.
  intros t pc Hl. by rewrite Hc, lookup_empty in Hl.
Qed.

Lemma idle_until_next_submission_witness :
  quiet
    (final false (ACall 5 CWaitIdle :: stats_acts 5)
       (final false done_acts (JobSystem_ctor 1 cfg1)))
  ∧ m_submitted
      (final false (ACall 5 CWaitIdle :: stats_acts 5)
         (final false done_acts (JobSystem_ctor 1 cfg1)))
    = m_submitted (final false done_acts (JobSystem_ctor 1 cfg1))
  ∧ m_completed
      (final false (ACall 5 CWaitIdle :: stats_acts 5)
         (final false done_acts (JobSystem_ctor 1 cfg1)))
    = m_completed (final false done_acts (JobSystem_ctor 1 cfg1))
  ∧ enqueued
      (history false (ACall 5 CWaitIdle :: stats_acts 5)
         (final false done_acts (JobSystem_ctor 1 cfg1))) = []
  ∧ dequeued
      (history false (ACall 5 CWaitIdle :: stats_acts 5)
         (final false done_acts (JobSystem_ctor 1 cfg1))) = []
  ∧ ran
      (history false (ACall 5 CWaitIdle :: stats_acts 5)
         (final false done_acts (JobSystem_ctor 1 cfg1))) = []
  ∧ completions
      (history false (ACall 5 CWaitIdle :: stats_acts 5)
         (final false done_acts (JobSystem_ctor 1 cfg1))) = [].
Proof.
  refine (idle_until_next_submission false 1 cfg1 done_acts _ _
            (ACall 5 CWaitIdle :: stats_acts 5) _ _ _ _ _ _).
  - vm_compute. reflexivity.
  - apply callers_absent_quiet; vm_compute; reflexivity.
  - vm_compute. reflexivity.
  - vm_compute. reflexivity.
Defined.

Lemma leave_goto4 t p1 p2 p3 p4 s :
  callers s !! t = None →
  leave t (goto t p4 (goto t p3 (goto t p2 (goto t p1 s)))) = s.
Proof.
  intros Hc. destruct s as [q a f sb c n ws cs]. unfold leave, goto, set_callers.
  simpl in *. f_equal.
  by rewrite !insert_insert_eq, delete_insert_id.
Qed.

Lemma step_GetStats_read tel t k acc s :
  step tel (AResume t) (goto t (PGetStats k acc) s)
  = Some (GetStats_read t k acc (goto t (PGetStats k acc) s)).
Proof. simpl. by rewrite lookup_insert_eq. Qed.

(** X14.  A [GetStats] that runs without any other thread taking a step in
    between returns exactly the current values: the size of the worker
    vector, the length of the queue and the three counters; and it leaves
    the scheduler as it found it. *)
Theorem GetStats_uninterrupted tel t s :
  callers s !! t = None →
  run tel (stats_acts t) s
  = Some (s, [EvStats t
                {| workerCount := wrap32 (Z.of_nat (length (m_workers s)));
                   queued := wrap64 (Z.of_nat (length (m_queue s)));
                   inFlight := m_inFlight s;
                   submitted := m_submitted s;
                   completed := m_completed s |}]).
Proof.
  intros Hc. unfold stats_acts.
  assert (step tel (ACall t CGetStats) s = Some (GetStats t s)) as Hcall
    by (simpl; by rewrite Hc).
  rewrite run_cons, Hcall. unfold GetStats. cbv beta iota.
  do 4 (rewrite run_cons, step_GetStats_read; unfold GetStats_read; cbv beta iota).
  simpl. by rewrite leave_goto4.
Qed.

Lemma GetStats_uninterrupted_witness :
  run false (stats_acts 2) (final false cancel_acts (JobSystem_ctor 1 cfg1))
  = Some (final false cancel_acts (JobSystem_ctor 1 cfg1),
          [EvStats 2
             {| workerCount :=
                  wrap32
                    (Z.of_nat
                       (length (m_workers (final false cancel_acts (JobSystem_ctor 1 cfg1)))));
                queued :=
                  wrap64
                    (Z.of_nat
                       (length (m_queue (final false cancel_acts (JobSystem_ctor 1 cfg1)))));
                inFlight := m_inFlight (final false cancel_acts (JobSystem_ctor 1 cfg1));
                submitted := m_submitted (final false cancel_acts (JobSystem_ctor 1 cfg1));
                completed := m_completed (final false cancel_acts (JobSystem_ctor 1 cfg1)) |}]).
Proof.
  refine (GetStats_uninterrupted false 2
            (final false cancel_acts (JobSystem_ctor 1 cfg1)) _).
  vm_compute. reflexivity.
Defined.

(** ** Task identifiers *)

Lemma step_TelInv n a s evs s' e :
  TelInv n s evs → Z.of_nat (S n) < 2 ^ 64 - 1 →
  step true a s = Some (s', e) → TelInv (S n) s' (evs ++ e).
Proof.
  intros HT Hn Hs.
  assert (fetch_add (m_nextTaskId s) 1 = m_nextTaskId s + 1) as Hfa.
  { pose proof (t_next _ _ _ HT). unfold fetch_add. apply wrap64_small. lia. }
  destruct a as [t c|t|i o]; simpl in Hs.
  - destruct (callers s !! t) eqn:Hc; [done|].
    destruct c; op_cases Hs; destruct HT as [Tn Te Tp Tu Td].
    all: split; simpl; rewrite ?enqueued_app; simpl; rewrite ?app_nil_r;
      try done; try lia.
    all: try (intros; map_field; eauto; done).
  - destruct (callers s !! t) as [pc|] eqn:Hc; [|done].
    destruct pc; op_cases Hs; destruct HT as [Tn Te Tp Tu Td].
    all: split; simpl; rewrite ?enqueued_app; simpl; rewrite ?app_nil_r;
      try done; try lia.
    all: try (intros; map_field; eauto; done).
    + (* the identifier just drawn is the old value of the counter *)
      intros x Hx. rewrite Hfa. specialize (Te _ Hx). lia.
    + intros t0 item Hl. rewrite Hfa. map_field.
      * split; [lia|]. intros x Hx. specialize (Te _ Hx). lia.
      * destruct (Tp _ _ Hl) as [? ?]. split; [lia|done].
    + intros t0 item t' item' Hl Hl' Hid. map_field; try done;
        try (by eapply Tu);
        match goal with
        | H : callers s !! _ = Some (PSubmitLock _) |- _ => destruct (Tp _ _ H); lia
        end.
    + (* the item pushed *)
      intros x [Hx|Hx]%elem_of_app; [by eauto|].
      apply list_elem_of_singleton in Hx as ->. by destruct (Tp _ _ Hc).
    + intros t0 item0 Hl. map_field. destruct (Tp _ _ Hl) as [? Hne].
      split; [done|]. intros x [Hx|Hx]%elem_of_app; [by eauto|].
      apply list_elem_of_singleton in Hx as ->. intros Hid.
      pose proof (Tu _ _ _ _ Hc Hl Hid). congruence.
    + rewrite fmap_app. apply NoDup_app. split_and!; [done| |].
      * intros y (x & -> & Hx)%list_elem_of_fmap Hy.
        apply list_elem_of_singleton in Hy. destruct (Tp _ _ Hc) as [_ Hne].
        by apply (Hne _ Hx).
      * apply NoDup_singleton.
  - destruct (m_workers s !! i) as [w|]; [|done].
    unfold worker_step in Hs.
    destruct (w_pc w); op_cases Hs; destruct HT as [Tn Te Tp Tu Td].
    all: split; simpl; rewrite ?enqueued_app; simpl; rewrite ?app_nil_r;
      try done; try lia.
Qed.

Lemma Exec_TelInv hc cfg acts s evs :
  Exec true (JobSystem_ctor hc cfg) acts s evs →
  Z.of_nat (length acts) < 2 ^ 64 - 1 →
  TelInv (length acts) s evs.
Proof.
  induction 1 as [|acts s evs a s' e _ IH Hs]; intros Hlen.
  - split; simpl; try done; try lia.
    + by intros x ?%elem_of_nil.
    + constructor.
  - rewrite length_app in *. simpl in *. rewrite Nat.add_1_r in *.
    eapply step_TelInv; [apply IH; lia|done|exact Hs].
Qed.

(** X15.  In a telemetry build, as long as the execution has fewer than
    2^64 - 1 steps, the identifiers stamped on tasks start at 1 and never
    repeat: the tasks pushed so far, and so the tasks in the queue, carry
    pairwise different identifiers, all of them at least 1 and below
    [m_nextTaskId]. *)
Theorem telemetry_ids_unique hc cfg acts s evs :
  run true acts (JobSystem_ctor hc cfg) = Some (s, evs) →
  Z.of_nat (length acts) < 2 ^ 64 - 1 →
  NoDup (item_id <$> enqueued evs)
  ∧ NoDup (item_id <$> m_queue s)
  ∧ ∀ x, x ∈ enqueued evs → 1 ≤ item_id x < m_nextTaskId s.
Proof.
  intros Hrun Hlen. pose proof (run_Exec _ _ _ _ _ Hrun) as HE.
  pose proof (Exec_TelInv _ _ _ _ _ HE Hlen) as HT.
  pose proof (inv_queue _ _ _ (Exec_Inv _ _ _ _ _ _ HE)) as Hq.
  pose proof (t_nodup _ _ _ HT) as Hnd.
  split_and!; [done| |exact (t_enq _ _ _ HT)].
  rewrite Hq, fmap_app in Hnd. by apply NoDup_app in Hnd as (_ & _ & ?).
Qed.

Lemma telemetry_ids_unique_witness :
  NoDup (item_id <$> enqueued (history true queued_acts (JobSystem_ctor 1 cfg1)))
  ∧ NoDup (item_id <$> m_queue (final true queued_acts (JobSystem_ctor 1 cfg1)))
  ∧ ∀ x, x ∈ enqueued (history true queued_acts (JobSystem_ctor 1 cfg1)) →
         1 ≤ item_id x < m_nextTaskId (final true queued_acts (JobSystem_ctor 1 cfg1)).
Proof.
  refine (telemetry_ids_unique 1 cfg1 queued_acts _ _ _ _).
  - vm_compute. reflexivity.
  - vm_compute. reflexivity.
Defined.

Lemma step_PlainInv a s evs s' e :
  PlainInv s evs → step false a s = Some (s', e) → PlainInv s' (evs ++ e).
Proof.
  intros HP Hs.
  destruct a as [t c|t|i o]; simpl in Hs.
  - destruct (callers s !! t) eqn:Hc; [done|].
    destruct c; op_cases Hs; destruct HP as [Pe Pp].
    all: split; simpl; rewrite ?enqueued_app; simpl; rewrite ?app_nil_r;
      try done.
    all: intros; map_field; eauto.
  - destruct (callers s !! t) as [pc|] eqn:Hc; [|done].
    destruct pc; op_cases Hs; destruct HP as [Pe Pp].
    all: split; simpl; rewrite ?enqueued_app; simpl; rewrite ?app_nil_r;
      try done.
    all: try (intros; map_field; eauto; done).
    intros x [Hx|Hx]%elem_of_app; [by eauto|].
    apply list_elem_of_singleton in Hx as ->. by eapply Pp.
  - destruct (m_workers s !! i) as [w|]; [|done].
    unfold worker_step in Hs.
    destruct (w_pc w); op_cases Hs; destruct HP as [Pe Pp].
    all: split; simpl; rewrite ?enqueued_app; simpl; rewrite ?app_nil_r; done.
Qed.

Lemma Exec_PlainInv hc cfg acts s evs :
  Exec false (JobSystem_ctor hc cfg) acts s evs → PlainInv s evs.
Proof.
  induction 1 as [|acts s evs a s' e _ IH Hs].
  - split; simpl; [by intros x ?%elem_of_nil|].
    intros t item Hl. by rewrite lookup_empty in Hl.
  - by eapply step_PlainInv.
Qed.

(** X16.  Without telemetry the label passed to [SubmitLabeled] is
    ignored: every task ever pushed, and so every task in the queue,
    carries identifier 0 and no label, whatever the callers passed. *)
Theorem label_ignored_without_telemetry hc cfg acts s evs :
  run false acts (JobSystem_ctor hc cfg) = Some (s, evs) →
  (∀ x, x ∈ enqueued evs → item_id x = 0 ∧ item_label x = None)
  ∧ (∀ x, x ∈ m_queue s → item_id x = 0 ∧ item_label x = None).
Proof.
  intros Hrun. pose proof (run_Exec _ _ _ _ _ Hrun) as HE.
  pose proof (pl_enq _ _ (Exec_PlainInv _ _ _ _ _ HE)) as Hp.
  pose proof (inv_queue _ _ _ (Exec_Inv _ _ _ _ _ _ HE)) as Hq.
  split; [exact Hp|]. intros x Hx. apply Hp. rewrite Hq.
  apply elem_of_app. by right.
Qed.

Lemma label_ignored_without_telemetry_witness :
  (∀ x,
     x ∈ enqueued
           (history false
              [ACall 0 (CSubmitLabeled (Some "physics"%string) (Some 7%nat));
               AResume 0; AResume 0]
              (JobSystem_ctor 1 cfg1)) →
     item_id x = 0 ∧ item_label x = None)
  ∧ (∀ x,
       x ∈ m_queue
             (final false
                [ACall 0 (CSubmitLabeled (Some "physics"%string) (Some 7%nat));
                 AResume 0; AResume 0]
                (JobSystem_ctor 1 cfg1)) →
       item_id x = 0 ∧ item_label x = None).
Proof.
  refine (label_ignored_without_telemetry 1 cfg1
            [ACall 0 (CSubmitLabeled (Some "physics"%string) (Some 7%nat));
             AResume 0; AResume 0] _ _ _).
  vm_compute. reflexivity.
Defined.

(** ** WaitIdle and the tasks *)

Lemma cnt_le P Q ws :
  (∀ pc, P pc = true → Q pc = true) → (cnt P ws ≤ cnt Q ws)%nat.
Proof.
  intros HPQ. induction ws as [|w r IH]; simpl; [done|].
  destruct (P (w_pc w)) eqn:HP; [rewrite (HPQ _ HP)|destruct (Q (w_pc w))]; lia.
Qed.

Lemma held_none ws : cnt inhand ws = 0%nat → held ws = [].
Proof.
  induction ws as [|w r IH]; simpl; [done|].
  unfold held. simpl. fold (held r).
  destruct (w_pc w); simpl; intros H; try done; by rewrite IH.
Qed.

(** X17.  In an execution without any call of [Stop], a [WaitIdle] that
    returns changes nothing, and at that moment every task accepted so far
    has been taken off the queue, in the order of acceptance, and has been
    called and counted: the tasks called are, as a multiset, the tasks
    accepted, no worker holds a task, and [m_completed] is the number of
    tasks accepted modulo 2^64, equal to [m_submitted].  As many
    submissions returned true as tasks were accepted. *)
Theorem WaitIdle_after_all_tasks_ran tel hc cfg acts s evs t s' e :
  run tel acts (JobSystem_ctor hc cfg) = Some (s, evs) →
  no_stop_calls acts = true →
  step tel (ACall t CWaitIdle) s = Some (s', e) →
  s' = s ∧ e = [EvWaitIdleRet t]
  ∧ dequeued evs = enqueued evs
  ∧ ran evs ≡ₚ enqueued evs
  ∧ held (m_workers s) = []
  ∧ m_completed s = Z.of_nat (length (enqueued evs)) mod 2 ^ 64
  ∧ m_completed s = m_submitted s
  ∧ length (ran evs) = length (enqueued evs)
  ∧ length (completions evs) = length (enqueued evs)
  ∧ length (accepted_returns evs) = length (enqueued evs).
Proof.
  intros Hrun Hns Hs.
  pose proof (run_Exec _ _ _ _ _ Hrun) as HE.
  pose proof (Exec_Inv _ _ _ _ _ _ HE) as HI.
  pose proof (Exec_Inv2 _ _ _ _ _ _ HE) as HJ.
  pose proof (Exec_no_stop _ _ _ _ _ HE Hns) as Hacc. simpl in Hacc.
  destruct (inv_accepting _ _ _ HI Hacc) as [Hd _].
  simpl in Hs. destruct (callers s !! t); [done|]. simpl in Hs.
  unfold WaitIdle, WaitIdle_pred in Hs.
  destruct (m_queue s) eqn:Hq; [|done]. simpl in Hs.
  destruct (m_inFlight s =? 0) eqn:Hz; [|done]. apply Z.eqb_eq in Hz.
  simplify_eq.
  pose proof (inv_inFlight _ _ _ HI) as Hin.
  pose proof (cnt_le running inhand (m_workers s')) as Hr.
  pose proof (cnt_le just_ran inhand (m_workers s')) as Hj.
  pose proof (i2_ran _ _ HJ) as H1. pose proof (i2_compl _ _ HJ) as H2.
  pose proof (inv_queue _ _ _ HI) as Hqq.
  rewrite Hq, app_nil_r, (removed_no_discard _ Hd) in Hqq.
  assert (cnt running (m_workers s') ≤ cnt inhand (m_workers s'))%nat as Hr'
    by (apply Hr; by intros []).
  assert (cnt just_ran (m_workers s') ≤ cnt inhand (m_workers s'))%nat as Hj'
    by (apply Hj; by intros []).
  assert (held (m_workers s') = []) as Hh by (apply held_none; lia).
  pose proof (run_items _ _ _ _ _ _ Hrun) as [Hp _].
  rewrite Hh, app_nil_r in Hp.
  assert (length (completions evs) = length (enqueued evs)) as Hc
    by (rewrite Hqq; lia).
  split; [done|]. split; [done|]. split; [done|].
  split; [by rewrite Hqq|]. split; [done|].
  split; [by rewrite (inv_completed _ _ _ HI), Hc|].
  split; [by rewrite (inv_completed _ _ _ HI), (inv_submitted _ _ _ HI), Hc|].
  split; [rewrite Hqq; lia|]. split; [done|].
  exact (i2_accepted _ _ HJ).
Qed.

Lemma WaitIdle_after_all_tasks_ran_witness :
  final false [ACall 5 CWaitIdle] (final false drained_acts (JobSystem_ctor 1 cfg1))
  = final false drained_acts (JobSystem_ctor 1 cfg1)
  ∧ history false [ACall 5 CWaitIdle] (final false drained_acts (JobSystem_ctor 1 cfg1))
    = [EvWaitIdleRet 5]
  ∧ dequeued (history false drained_acts (JobSystem_ctor 1 cfg1))
    = enqueued (history false drained_acts (JobSystem_ctor 1 cfg1))
  ∧ ran (history false drained_acts (JobSystem_ctor 1 cfg1))
    ≡ₚ enqueued (history false drained_acts (JobSystem_ctor 1 cfg1))
  ∧ held (m_workers (final false drained_acts (JobSystem_ctor 1 cfg1))) = []
  ∧ m_completed (final false drained_acts (JobSystem_ctor 1 cfg1))
    = Z.of_nat (length (enqueued (history false drained_acts (JobSystem_ctor 1 cfg1))))
      mod 2 ^ 64
  ∧ m_completed (final false drained_acts (JobSystem_ctor 1 cfg1))
    = m_submitted (final false drained_acts (JobSystem_ctor 1 cfg1))
  ∧ length (ran (history false drained_acts (JobSystem_ctor 1 cfg1)))
    = length (enqueued (history false drained_acts (JobSystem_ctor 1 cfg1)))
  ∧ length (completions (history false drained_acts (JobSystem_ctor 1 cfg1)))
    = length (enqueued (history false drained_acts (JobSystem_ctor 1 cfg1)))
  ∧ length (accepted_returns (history false drained_acts (JobSystem_ctor 1 cfg1)))
    = length (enqueued (history false drained_acts (JobSystem_ctor 1 cfg1))).
Proof.
  refine (WaitIdle_after_all_tasks_ran false 1 cfg1 drained_acts _ _ 5%nat _ _ _ _ _).
  - vm_compute. reflexivity.
  - vm_compute. reflexivity.
  - vm_compute. reflexivity.
Defined.

(** ** The test harness *)

Lemma checks_spec cs r :
  TestRunner.failures r + Z.of_nat (length (TestRunner.failed cs)) ≤ TestRunner.INT_MAX →
  TestRunner.checks cs r
  = Some ({| TestRunner.failures :=
               TestRunner.failures r + Z.of_nat (length (TestRunner.failed cs)) |},
          TestRunner.fail_line <$> TestRunner.failed cs).
Proof.
  revert r. induction cs as [|c cs IH]; intros [f] Hle; simpl in *.
  - by rewrite Z.add_0_r.
  - unfold TestRunner.Check. destruct (TestRunner.condition c) eqn:Hc; simpl in *.
    + by rewrite IH.
    + destruct (f =? TestRunner.INT_MAX) eqn:Hf; [apply Z.eqb_eq in Hf; lia|].
      rewrite IH by (simpl; lia). simpl. do 3 f_equal. lia.
Qed.

(** X18.  A runner that starts at 0 failures and performs a sequence of
    checks of which at most [INT_MAX] fail ends with [failures] equal to
    the number of failed conditions, has written one FAIL line per failed
    condition, in order, and [Finish] returns 0 (and announces success)
    exactly when every condition held, and 1 otherwise. *)
Theorem Finish_zero_iff_all_passed cs :
  Z.of_nat (length (TestRunner.failed cs)) ≤ TestRunner.INT_MAX →
  ∃ r,
    TestRunner.checks cs {| TestRunner.failures := 0 |}
    = Some (r, TestRunner.fail_line <$> TestRunner.failed cs)
    ∧ TestRunner.failures r = Z.of_nat (length (TestRunner.failed cs))
    ∧ ((TestRunner.Finish r).1 = 0
       ↔ ∀ c, c ∈ cs → TestRunner.condition c = true)
    ∧ ((TestRunner.Finish r).1 = 0 ∨ (TestRunner.Finish r).1 = 1)
    ∧ ((TestRunner.Finish r).2 ≠ [] ↔ (TestRunner.Finish r).1 = 0).
Proof.
  intros Hle. eexists. split; [by rewrite checks_spec|]. simpl.
  split; [done|].
  assert (length (TestRunner.failed cs) = 0%nat
          ↔ ∀ c, c ∈ cs → TestRunner.condition c = true) as Hall.
  { unfold TestRunner.failed. induction cs as [|c cs IH]; simpl.
    - split; [|done]. by intros _ c ?%elem_of_nil.
    - destruct (TestRunner.condition c) eqn:Hc; simpl.
      + rewrite IH by (simpl in Hle; rewrite Hc in Hle; done).
        split.
        * intros H x [->|Hx]%elem_of_cons; auto.
        * intros H x Hx. apply H. by apply elem_of_cons; right.
      + split; [done|]. intros H.
        specialize (H c (proj2 (elem_of_cons _ _ _) (or_introl eq_refl))).
        congruence. }
  unfold TestRunner.Finish. simpl.
  destruct (length (TestRunner.failed cs)) as [|k] eqn:Hk; simpl.
  - split_and!; [by split; intros; [apply Hall|]|by left|done].
  - split_and!; [|by right|done].
    split; [done|]. intros H. apply Hall in H. done.
Qed.

Lemma Finish_zero_iff_all_passed_witness :
  ∃ r,
    TestRunner.checks
      [ {| TestRunner.condition := true; TestRunner.expr := "stats.queued == 0";
           TestRunner.file := "tests.cpp"; TestRunner.line := 57 |};
        {| TestRunner.condition := false; TestRunner.expr := "!js.Submit(empty)";
           TestRunner.file := "tests.cpp"; TestRunner.line := 114 |} ]
      {| TestRunner.failures := 0 |}
    = Some (r,
            TestRunner.fail_line
              <$> TestRunner.failed
                    [ {| TestRunner.condition := true;
                         TestRunner.expr := "stats.queued == 0";
                         TestRunner.file := "tests.cpp";
                         TestRunner.line := 57 |};
                      {| TestRunner.condition := false;
                         TestRunner.expr := "!js.Submit(empty)";
                         TestRunner.file := "tests.cpp";
                         TestRunner.line := 114 |} ])
    ∧ TestRunner.failures r
      = Z.of_nat
          (length
             (TestRunner.failed
                [ {| TestRunner.condition := true;
                     TestRunner.expr := "stats.queued == 0";
                     TestRunner.file := "tests.cpp";
                     TestRunner.line := 57 |};
                  {| TestRunner.condition := false;
                     TestRunner.expr := "!js.Submit(empty)";
                     TestRunner.file := "tests.cpp";
                     TestRunner.line := 114 |} ]))
    ∧ ((TestRunner.Finish r).1 = 0
       ↔ ∀ c,
           c ∈ [ {| TestRunner.condition := true;
                    TestRunner.expr := "stats.queued == 0";
                    TestRunner.file := "tests.cpp";
                    TestRunner.line := 57 |};
                 {| TestRunner.condition := false;
                    TestRunner.expr := "!js.Submit(empty)";
                    TestRunner.file := "tests.cpp";
                    TestRunner.line := 114 |} ] →
           TestRunner.condition c = true)
    ∧ ((TestRunner.Finish r).1 = 0 ∨ (TestRunner.Finish r).1 = 1)
    ∧ ((TestRunner.Finish r).2 ≠ [] ↔ (TestRunner.Finish r).1 = 0).
Proof.
  refine (Finish_zero_iff_all_passed _ _).
  vm_compute. discriminate.
Defined.

(** ** Exceptions thrown by tasks *)

(** C5.  In every reachable state in which a worker holds a task: when the
    callable throws, the worker's step is the very step it takes when the
    callable returns (the exception is swallowed).  Its next two steps
    count the task: [m_completed] becomes [m_completed + 1] modulo 2^64,
    which is one more than the number of tasks counted before, and
    [m_inFlight] goes down by exactly one.  The worker is then back at the
    head of its loop, still in the worker vector, with everything else
    unchanged, and if a task is queued its next step takes the head of the
    queue: the loop goes on. *)
Theorem exception_contained tel hc cfg acts s evs i w task :
  run tel acts (JobSystem_ctor hc cfg) = Some (s, evs) →
  m_workers s !! i = Some w →
  w_pc w = WRun task →
  ∃ s1 s3,
    step tel (AWorker i Threw) s = Some (s1, [EvTask i task Threw])
    ∧ step tel (AWorker i Returned) s = Some (s1, [EvTask i task Returned])
    ∧ run tel [AWorker i Threw; AWorker i Returned; AWorker i Returned] s
      = Some (s3, [EvTask i task Threw; EvCompleted i])
    ∧ m_completed s3 = (m_completed s + 1) mod 2 ^ 64
    ∧ m_completed s3 = (Z.of_nat (length (completions evs)) + 1) mod 2 ^ 64
    ∧ m_inFlight s3 = m_inFlight s - 1
    ∧ m_workers s3 = <[i := {| w_pc := WWait; w_stop := w_stop w |}]> (m_workers s)
    ∧ m_queue s3 = m_queue s
    ∧ m_submitted s3 = m_submitted s
    ∧ m_accepting s3 = m_accepting s
    ∧ callers s3 = callers s
    ∧ ∀ next rest o,
        m_queue s = next :: rest →
        ∃ s4,
          step tel (AWorker i o) s3 = Some (s4, [EvDequeue i next])
          ∧ m_workers s4 !! i = Some {| w_pc := WRun next; w_stop := w_stop w |}
          ∧ m_queue s4 = rest.
Proof.
  intros Hrun Hw Hpc. pose proof (run_Inv _ _ _ _ _ _ Hrun) as HI.
  pose proof (lookup_lt_Some _ _ _ Hw) as Hlt.
  pose proof (inv_inFlight _ _ _ HI) as Hin.
  assert (1 ≤ cnt inhand (m_workers s))%nat as Hpos.
  { apply (cnt_pos inhand _ _ _ Hw). by rewrite Hpc. }
  pose proof (cnt_le_length inhand (m_workers s)) as Hle.
  assert (length (m_workers s) ≤ worker_total hc cfg)%nat as HlN.
  { rewrite (inv_workers _ _ _ HI). destruct (stop_performed evs); lia. }
  pose proof (inv_N _ _ _ HI) as HN.
  assert (∀ o, step tel (AWorker i o) s
               = Some (wgoto i w WRan s, [EvTask i task o])) as Hs1.
  { intros o. simpl. rewrite Hw. unfold worker_step. rewrite Hpc.
    by destruct o. }
  eexists (wgoto i w WRan s), _. split_and!.
  - apply Hs1.
  - apply Hs1.
  - rewrite run_cons, Hs1. cbv beta iota.
    rewrite run_cons. simpl step. rewrite list_lookup_insert_eq by done.
    unfold worker_step. simpl w_pc. unfold WorkerLoop_count. cbv beta iota.
    rewrite run_cons. simpl step.
    rewrite list_lookup_insert_eq by (by rewrite length_insert).
    unfold worker_step. simpl w_pc. unfold WorkerLoop_finish. cbv beta iota.
    simpl run. reflexivity.
  - simpl. by unfold fetch_add, wrap64.
  - simpl. unfold fetch_add, wrap64. rewrite (inv_completed _ _ _ HI).
    unfold wrap64. by rewrite Zplus_mod_idemp_l.
  - simpl. unfold fetch_sub. rewrite wrap64_small; lia.
  - simpl. by rewrite !list_insert_insert_eq.
  - done.
  - done.
  - done.
  - done.
  - intros next rest o Hq. eexists. simpl.
    rewrite list_lookup_insert_eq by (by rewrite !length_insert).
    unfold worker_step. simpl w_pc. unfold WorkerLoop_wait. simpl m_queue.
    rewrite Hq. simpl. rewrite orb_true_r, andb_false_r. simpl.
    split_and!; [reflexivity| |done].
    simpl. rewrite list_lookup_insert_eq; [done|]. by rewrite !length_insert.
Qed.

Lemma exception_contained_witness :
  ∃ s1 s3,
    step false (AWorker 0 Threw) (final false first_taken_acts (JobSystem_ctor 1 cfg1))
    = Some (s1, [EvTask 0 {| item_fn := Some 7%nat; item_id := 0; item_label := None |}
                   Threw])
    ∧ step false (AWorker 0 Returned)
        (final false first_taken_acts (JobSystem_ctor 1 cfg1))
      = Some (s1, [EvTask 0 {| item_fn := Some 7%nat; item_id := 0; item_label := None |}
                     Returned])
    ∧ run false [AWorker 0 Threw; AWorker 0 Returned; AWorker 0 Returned]
        (final false first_taken_acts (JobSystem_ctor 1 cfg1))
      = Some (s3, [EvTask 0 {| item_fn := Some 7%nat; item_id := 0; item_label := None |}
                     Threw;
                   EvCompleted 0])
    ∧ m_completed s3
      = (m_completed (final false first_taken_acts (JobSystem_ctor 1 cfg1)) + 1)
          mod 2 ^ 64
    ∧ m_completed s3
      = (Z.of_nat
           (length
              (completions (history false first_taken_acts (JobSystem_ctor 1 cfg1))))
         + 1) mod 2 ^ 64
    ∧ m_inFlight s3
      = m_inFlight (final false first_taken_acts (JobSystem_ctor 1 cfg1)) - 1
    ∧ m_workers s3
      = <[0%nat := {| w_pc := WWait; w_stop := false |}]>
          (m_workers (final false first_taken_acts (JobSystem_ctor 1 cfg1)))
    ∧ m_queue s3 = m_queue (final false first_taken_acts (JobSystem_ctor 1 cfg1))
    ∧ m_submitted s3
      = m_submitted (final false first_taken_acts (JobSystem_ctor 1 cfg1))
    ∧ m_accepting s3
      = m_accepting (final false first_taken_acts (JobSystem_ctor 1 cfg1))
    ∧ callers s3 = callers (final false first_taken_acts (JobSystem_ctor 1 cfg1))
    ∧ ∀ next rest o,
        m_queue (final false first_taken_acts (JobSystem_ctor 1 cfg1)) = next :: rest →
        ∃ s4,
          step false (AWorker 0 o) s3 = Some (s4, [EvDequeue 0 next])
          ∧ m_workers s4 !! 0%nat = Some {| w_pc := WRun next; w_stop := false |}
          ∧ m_queue s4 = rest.
Proof.
  refine (exception_contained false 1 cfg1 first_taken_acts _ _ 0%nat
            {| w_pc := WRun {| item_fn := Some 7%nat; item_id := 0; item_label := None |};
               w_stop := false |} _ _ _ _).
  - vm_compute. reflexivity.
  - vm_compute. reflexivity.
  - reflexivity.
Defined.

(** ** What [Stop(CancelPending)] leaves to be called *)

(** X9.  [Stop(CancelPending)] drops queued work and lets only in-flight
    tasks finish.  Its discard removes the whole queue and touches no
    worker.  After it, whatever happens next: nothing is pushed onto or
    taken off the queue, no submission is accepted, and the tasks called
    from then on together with the tasks still held are, as a multiset,
    exactly the tasks that workers held at the discard, so every task
    called after the discard is one of those.  In a telemetry build,
    where (below 2^64 - 1 steps) every task carries its own identifier, no
    task that was in the queue at the discard is called at any time,
    before or after, and none is held by a worker. *)
Theorem cancelled_tasks_never_start tel hc cfg acts s evs t s1 e1 acts2 s2 e2 :
  run tel acts (JobSystem_ctor hc cfg) = Some (s, evs) →
  callers s !! t = Some (PStopLock CancelPending) →
  step tel (AResume t) s = Some (s1, e1) →
  run tel acts2 s1 = Some (s2, e2) →
  e1 = [EvDiscard (m_queue s)]
  ∧ m_workers s1 = m_workers s
  ∧ m_queue s2 = []
  ∧ enqueued e2 = [] ∧ dequeued e2 = [] ∧ accepted_returns e2 = []
  ∧ ran e2 ++ held (m_workers s2) ≡ₚ held (m_workers s)
  ∧ (∀ x, x ∈ ran e2 → x ∈ held (m_workers s))
  ∧ (cnt running (m_workers s2) + length (ran e2) = cnt running (m_workers s))%nat
  ∧ (tel = true →
     Z.of_nat (length (acts ++ AResume t :: acts2)) < 2 ^ 64 - 1 →
     ∀ x, x ∈ m_queue s →
          (x ∉ ran (evs ++ e1 ++ e2)) ∧ (x ∉ held (m_workers s2))).
Proof.
  intros Hrun Hc Hs Hr. pose proof (run_Inv _ _ _ _ _ _ Hrun) as HI.
  pose proof (inv_stop_acc _ _ _ HI _ _ Hc eq_refl) as Hf.
  pose proof Hs as Hs0.
  simpl in Hs. rewrite Hc in Hs. simpl in Hs. unfold Stop_locked in Hs.
  simplify_eq.
  destruct (run_closed_queue _ _ _ _ _ Hr) as (_ & Hq2 & He2 & Hd2 & Ha2 & Hb2);
    [done..|].
  pose proof (run_held_balance _ _ _ _ _ Hr) as Hb.
  rewrite Hd2, app_nil_r in Hb. simpl in Hb.
  assert (ran e2 ++ held (m_workers s2) ≡ₚ held (m_workers s)) as Hperm
    by (by rewrite <- Hb, Permutation_app_comm).
  split; [done|]. split; [done|]. split; [done|]. split; [done|].
  split; [done|]. split; [done|]. split; [done|].
  split; [intros x Hx; rewrite <- Hperm; apply elem_of_app; by left|].
  split; [done|].
  intros -> Hlen x Hx.
  assert (run true (acts ++ AResume t :: acts2) (JobSystem_ctor hc cfg)
          = Some (s2, evs ++ [EvDiscard (m_queue s)] ++ e2)) as Hall.
  { by rewrite run_app, Hrun, run_cons, Hs0, Hr. }
  pose proof (run_items _ _ _ _ _ _ Hall) as [_ He].
  pose proof (Exec_TelInv _ _ _ _ _ (run_Exec _ _ _ _ _ Hall) Hlen) as HT.
  pose proof (NoDup_fmap_1 item_id _ (t_nodup _ _ _ HT)) as Hnd.
  rewrite He, !discarded_app in Hnd. simpl in Hnd.
  apply NoDup_app in Hnd as (_ & Hdis & Hnd).
  apply NoDup_app in Hnd as (_ & Hdis2 & _).
  split.
  - intros Hran. apply (Hdis _ Hran). rewrite !elem_of_app. tauto.
  - intros Hh. apply (Hdis2 _ Hh). rewrite !elem_of_app. tauto.
Qed.

Lemma cancelled_tasks_never_start_witness :
  history true [AResume 1] (final true cancel_acts (JobSystem_ctor 1 cfg1))
  = [EvDiscard (m_queue (final true cancel_acts (JobSystem_ctor 1 cfg1)))]
  ∧ m_workers (final true (cancel_acts ++ [AResume 1]) (JobSystem_ctor 1 cfg1))
    = m_workers (final true cancel_acts (JobSystem_ctor 1 cfg1))
  ∧ m_queue
      (final true after_discard_acts
         (final true (cancel_acts ++ [AResume 1]) (JobSystem_ctor 1 cfg1))) = []
  ∧ enqueued
      (history true after_discard_acts
         (final true (cancel_acts ++ [AResume 1]) (JobSystem_ctor 1 cfg1))) = []
  ∧ dequeued
      (history true after_discard_acts
         (final true (cancel_acts ++ [AResume 1]) (JobSystem_ctor 1 cfg1))) = []
  ∧ accepted_returns
      (history true after_discard_acts
         (final true (cancel_acts ++ [AResume 1]) (JobSystem_ctor 1 cfg1))) = []
  ∧ ran
      (history true after_discard_acts
         (final true (cancel_acts ++ [AResume 1]) (JobSystem_ctor 1 cfg1)))
    ++ held
         (m_workers
            (final true after_discard_acts
               (final true (cancel_acts ++ [AResume 1]) (JobSystem_ctor 1 cfg1))))
    ≡ₚ held (m_workers (final true cancel_acts (JobSystem_ctor 1 cfg1)))
  ∧ (∀ x,
       x ∈ ran
             (history true after_discard_acts
                (final true (cancel_acts ++ [AResume 1]) (JobSystem_ctor 1 cfg1))) →
       x ∈ held (m_workers (final true cancel_acts (JobSystem_ctor 1 cfg1))))
  ∧ (cnt running
       (m_workers
          (final true after_discard_acts
             (final true (cancel_acts ++ [AResume 1]) (JobSystem_ctor 1 cfg1))))
     + length
         (ran
            (history true after_discard_acts
               (final true (cancel_acts ++ [AResume 1]) (JobSystem_ctor 1 cfg1))))
     = cnt running (m_workers (final true cancel_acts (JobSystem_ctor 1 cfg1))))%nat
  ∧ (∀ x,
       x ∈ m_queue (final true cancel_acts (JobSystem_ctor 1 cfg1)) →
       (x ∉ ran
              (history true cancel_acts (JobSystem_ctor 1 cfg1)
               ++ history true [AResume 1] (final true cancel_acts (JobSystem_ctor 1 cfg1))
               ++ history true after_discard_acts
                    (final true (cancel_acts ++ [AResume 1]) (JobSystem_ctor 1 cfg1))))
       ∧ (x ∉ held
                (m_workers
                   (final true after_discard_acts
                      (final true (cancel_acts ++ [AResume 1])
                         (JobSystem_ctor 1 cfg1)))))).
Proof.
  refine (match cancelled_tasks_never_start true 1 cfg1 cancel_acts _ _ 1%nat _ _
                  after_discard_acts _ _ _ _ _ _ with
          | conj H1 (conj H2 (conj H3 (conj H4 (conj H5 (conj H6 (conj H7
              (conj H8 (conj H9 H10)))))))) =>
              conj H1 (conj H2 (conj H3 (conj H4 (conj H5 (conj H6 (conj H7
                (conj H8 (conj H9 (H10 _ _)))))))))
          end).
  - vm_compute. reflexivity.
  - vm_compute. reflexivity.
  - vm_compute. reflexivity.
  - vm_compute. reflexivity.
  - reflexivity.
  - vm_compute. reflexivity.
Defined.
